(** * Callback verification and dispatch engine of the IM webhook receiver

    A shallow embedding of package [callback] (the second part of
    [src/group/api.go]): signature check, command registry, handler table,
    acknowledgement responder and the [Listen] pipeline, followed by the
    properties the specification states about them.

    Conventions.
    - Go [string] is [string]; [[]byte] is [list byte].
    - Go [int] and [int64] are [Z] with two's-complement wrap-around written
      out ([wrap64]).
    - [map[K]V] is [gmap K V].
    - [time.Now().Unix()] is an explicit argument [now].
    - The [http.ResponseWriter] is the list of method calls made on it. *)

From Stdlib Require Import ZArith Strings.String Strings.Ascii Strings.Byte List Lia Bool.
From stdpp Require Import base option gmap strings list.
Import ListNotations.

Local Open Scope string_scope.
Local Open Scope Z_scope.

Definition bytes := list byte.

(** [[]byte(s)] and [string(b)]. *)
Definition bytes_of_string (s : string) : bytes := list_byte_of_string s.

Definition byte_val (b : byte) : Z := Z.of_N (Byte.to_N b).

Definition byte_of_val (z : Z) : byte :=
  match Byte.of_N (Z.to_N (z mod 256)) with
  | Some b => b
  | None => x00
  end.

(** ** Fixed-width integers *)

Module int64.
Definition min : Z := - 2 ^ 63.
Definition max : Z := 2 ^ 63 - 1.
Definition in_range (x : Z) : Prop := min <= x <= max.
Definition in_rangeb (x : Z) : bool := (min <=? x) && (x <=? max).
End int64.

(** Reduction of a mathematical integer to the [int64] it is stored as. *)
Definition wrap64 (x : Z) : Z := (x + 2 ^ 63) mod 2 ^ 64 - 2 ^ 63.

Definition sub64 (x y : Z) : Z := wrap64 (x - y).
Definition neg64 (x : Z) : Z := wrap64 (- x).

(** ** crypto/sha256 (FIPS 180-4) *)

Module sha256.

Definition mask32 : Z := 2 ^ 32 - 1.
Definition add32 (x y : Z) : Z := (x + y) mod 2 ^ 32.
Definition rotr (n x : Z) : Z :=
  Z.land (Z.lor (Z.shiftr x n) (Z.shiftl x (32 - n))) mask32.
Definition shr (n x : Z) : Z := Z.shiftr x n.
Definition not32 (x : Z) : Z := Z.lxor x mask32.

Definition Ch (x y z : Z) : Z := Z.lxor (Z.land x y) (Z.land (not32 x) z).
Definition Maj (x y z : Z) : Z :=
  Z.lxor (Z.lxor (Z.land x y) (Z.land x z)) (Z.land y z).
Definition bsig0 (x : Z) : Z := Z.lxor (Z.lxor (rotr 2 x) (rotr 13 x)) (rotr 22 x).
Definition bsig1 (x : Z) : Z := Z.lxor (Z.lxor (rotr 6 x) (rotr 11 x)) (rotr 25 x).
Definition ssig0 (x : Z) : Z := Z.lxor (Z.lxor (rotr 7 x) (rotr 18 x)) (shr 3 x).
Definition ssig1 (x : Z) : Z := Z.lxor (Z.lxor (rotr 17 x) (rotr 19 x)) (shr 10 x).

(** The round constants are the first 32 bits of the fractional parts of
    the cube roots of the first 64 primes; the initial hash value those of
    the square roots of the first 8 primes. *)
Definition primes : list Z :=
  [2; 3; 5; 7; 11; 13; 17; 19; 23; 29; 31; 37; 41; 43; 47; 53;
   59; 61; 67; 71; 73; 79; 83; 89; 97; 101; 103; 107; 109; 113; 127; 131;
   137; 139; 149; 151; 157; 163; 167; 173; 179; 181; 191; 193; 197; 199;
   211; 223; 227; 229; 233; 239; 241; 251; 257; 263; 269; 271; 277; 281;
   283; 293; 307; 311].

Fixpoint cbrt_bits (b : nat) (n r : Z) : Z :=
  match b with
  | O => r
  | S b' =>
      let r' := r + 2 ^ Z.of_nat b' in
      cbrt_bits b' n (if r' * r' * r' <=? n then r' else r)
  end.

Definition K : list Z :=
  Eval vm_compute in
    map (fun p => cbrt_bits 36 (p * 2 ^ 96) 0 mod 2 ^ 32) primes.

Definition H0 : list Z :=
  Eval vm_compute in
    map (fun p => Z.sqrt (p * 2 ^ 64) mod 2 ^ 32) (firstn 8 primes).

Record state := State { sa : Z; sb : Z; sc : Z; sd : Z; se : Z; sf : Z; sg : Z; sh : Z }.

Definition init : state :=
  match H0 with
  | [a; b; c; d; e; f; g; h] => State a b c d e f g h
  | _ => State 0 0 0 0 0 0 0 0
  end.

(** Message schedule, kept newest word first. *)
Fixpoint schedule (n : nat) (rw : list Z) : list Z :=
  match n with
  | O => rw
  | S n' =>
      let w := add32 (add32 (ssig1 (nth 1 rw 0)) (nth 6 rw 0))
                     (add32 (ssig0 (nth 14 rw 0)) (nth 15 rw 0)) in
      schedule n' (w :: rw)
  end.

Definition round (s : state) (kw : Z * Z) : state :=
  let '(k, w) := kw in
  let t1 := add32 (add32 (add32 (sh s) (bsig1 (se s))) (Ch (se s) (sf s) (sg s)))
                  (add32 k w) in
  let t2 := add32 (bsig0 (sa s)) (Maj (sa s) (sb s) (sc s)) in
  State (add32 t1 t2) (sa s) (sb s) (sc s) (add32 (sd s) t1) (se s) (sf s) (sg s).

Definition compress (s : state) (block : list Z) : state :=
  let w := rev (schedule 48 (rev block)) in
  let r := fold_left round (combine K w) s in
  State (add32 (sa s) (sa r)) (add32 (sb s) (sb r)) (add32 (sc s) (sc r))
        (add32 (sd s) (sd r)) (add32 (se s) (se r)) (add32 (sf s) (sf r))
        (add32 (sg s) (sg r)) (add32 (sh s) (sh r)).

Definition be_bytes (width : nat) (x : Z) : list Z :=
  map (fun i => Z.shiftr x (8 * Z.of_nat i) mod 256) (rev (seq 0 width)).

Definition pad (msg : list Z) : list Z :=
  let len := Z.of_nat (length msg) in
  msg ++ [128] ++ repeat 0 (Z.to_nat ((55 - len) mod 64)) ++ be_bytes 8 (8 * len).

Fixpoint words (fuel : nat) (bs : list Z) : list Z :=
  match fuel, bs with
  | S f, b0 :: b1 :: b2 :: b3 :: rest =>
      (((b0 * 256 + b1) * 256 + b2) * 256 + b3) :: words f rest
  | _, _ => []
  end.

Fixpoint blocks (fuel : nat) (ws : list Z) (s : state) : state :=
  match fuel, ws with
  | S f, _ :: _ => blocks f (skipn 16 ws) (compress s (firstn 16 ws))
  | _, _ => s
  end.

(** [h := sha256.New(); h.Write(data); h.Sum(nil)] *)
Definition Sum (data : bytes) : bytes :=
  let p := pad (map byte_val data) in
  let ws := words (length p) p in
  let s := blocks (length ws) ws init in
  map byte_of_val
    (flat_map (be_bytes 4) [sa s; sb s; sc s; sd s; se s; sf s; sg s; sh s]).

End sha256.

(** ** encoding/hex *)

Module hex.
Definition hextable : string := "0123456789abcdef".

Definition digit (n : Z) : ascii :=
  match String.get (Z.to_nat n) hextable with
  | Some c => c
  | None => "0"%char
  end.

Fixpoint EncodeToString (src : bytes) : string :=
  match src with
  | [] => ""
  | b :: rest =>
      String (digit (Z.shiftr (byte_val b) 4))
        (String (digit (Z.land (byte_val b) 15)) (EncodeToString rest))
  end.
End hex.

(** ** strconv *)

Module strconv.

Definition digit_char (d : Z) : ascii := ascii_of_nat (48 + Z.to_nat d).

(** Decimal digits of a non-negative [u], most significant first. *)
Fixpoint formatBits (fuel : nat) (u : Z) (acc : string) : string :=
  match fuel with
  | O => acc
  | S f =>
      let acc' := String (digit_char (u mod 10)) acc in
      if u <? 10 then acc' else formatBits f (u / 10) acc'
  end.

(** [strconv.FormatInt(i, 10)] *)
Definition FormatInt (i : Z) : string :=
  if i <? 0
  then String "-" (formatBits (S (Z.to_nat (Z.log2 (- i)))) (- i) "")
  else formatBits (S (Z.to_nat (Z.log2 i))) i "".

(** [strconv.Itoa(i)] *)
Definition Itoa (i : Z) : string := FormatInt i.

Inductive NumError := ErrSyntax | ErrRange.

Definition maxUint64 : Z := 2 ^ 64 - 1.

(** The digit loop of [strconv.ParseUint(s, 10, 64)], started at [n]. *)
Fixpoint parseDigits (s : string) (n : Z) : Z + NumError :=
  match s with
  | EmptyString => inl n
  | String c rest =>
      let d := Z.of_nat (nat_of_ascii c) - 48 in
      if (d <? 0) || (9 <? d) then inr ErrSyntax
      else if maxUint64 / 10 + 1 <=? n then inr ErrRange
      else
        let n1 := n * 10 + d in
        if maxUint64 <? n1 then inr ErrRange
        else parseDigits rest n1
  end.

Definition ParseUint (s : string) : Z + NumError :=
  match s with
  | EmptyString => inr ErrSyntax
  | _ => parseDigits s 0
  end.

(** [strconv.ParseInt(s, 10, 64)] *)
Definition ParseInt (s : string) : Z + NumError :=
  match s with
  | EmptyString => inr ErrSyntax
  | String c rest =>
      let neg := Ascii.eqb c "-" in
      let s' := if Ascii.eqb c "+" || neg then rest else s in
      match ParseUint s' with
      | inr e => inr e
      | inl un =>
          let cutoff := 2 ^ 63 in
          if negb neg && (cutoff <=? un) then inr ErrRange
          else if neg && (cutoff <? un) then inr ErrRange
          else inl (if neg then - un else un)
      end
  end.

End strconv.

(** ** net/url: the query string as a multimap *)

(** [url.Values] is [map[string][]string]. [r.URL.Query()] fills it from the
    decoded [key=value] pairs of the query string, in order, each by
    [m[key] = append(m[key], value)]. *)
Fixpoint parseQuery (m : gmap string (list string)) (pairs : list (string * string))
  : gmap string (list string) :=
  match pairs with
  | [] => m
  | (key, value) :: rest => parseQuery (<[key := (default [] (m !! key) ++ [value])%list]> m) rest
  end.

Definition Query (pairs : list (string * string)) : gmap string (list string) :=
  parseQuery ∅ pairs.

(** ** Package callback: constants *)

Definition Event := Z.

Definition commandStateChange := "State.StateChange".
Definition commandBeforeFriendAdd := "Sns.CallbackPrevFriendAdd".
Definition commandBeforeFriendResponse := "Sns.CallbackPrevFriendResponse".
Definition commandAfterFriendAdd := "Sns.CallbackFriendAdd".
Definition commandAfterFriendDelete := "Sns.CallbackFriendDelete".
Definition commandAfterBlacklistAdd := "Sns.CallbackBlackListAdd".
Definition commandAfterBlacklistDelete := "Sns.CallbackBlackListDelete".
Definition commandBeforePrivateMessageSend := "C2C.CallbackBeforeSendMsg".
Definition commandAfterPrivateMessageSend := "C2C.CallbackAfterSendMsg".
Definition commandAfterPrivateMessageReport := "C2C.CallbackAfterMsgReport".
Definition commandAfterPrivateMessageRevoke := "C2C.CallbackAfterMsgWithDraw".
Definition commandBeforeGroupCreate := "Group.CallbackBeforeCreateGroup".
Definition commandAfterGroupCreate := "Group.CallbackAfterCreateGroup".
Definition commandBeforeApplyJoinGroup := "Group.CallbackBeforeApplyJoinGroup".
Definition commandBeforeInviteJoinGroup := "Group.CallbackBeforeInviteJoinGroup".
Definition commandAfterNewMemberJoinGroup := "Group.CallbackAfterNewMemberJoin".
Definition commandAfterMemberExitGroup := "Group.CallbackAfterMemberExit".
Definition commandBeforeGroupMessageSend := "Group.CallbackBeforeSendMsg".
Definition commandAfterGroupMessageSend := "Group.CallbackAfterSendMsg".
Definition commandAfterGroupFull := "Group.CallbackAfterGroupFull".
Definition commandAfterGroupDestroyed := "Group.CallbackAfterGroupDestroyed".
Definition commandAfterGroupInfoChanged := "Group.CallbackAfterGroupInfoChanged".

(** [EventStateChange Event = iota + 1] and the following. *)
Definition EventStateChange : Event := 1.
Definition EventBeforeFriendAdd : Event := 2.
Definition EventBeforeFriendResponse : Event := 3.
Definition EventAfterFriendAdd : Event := 4.
Definition EventAfterFriendDelete : Event := 5.
Definition EventAfterBlacklistAdd : Event := 6.
Definition EventAfterBlacklistDelete : Event := 7.
Definition EventBeforePrivateMessageSend : Event := 8.
Definition EventAfterPrivateMessageSend : Event := 9.
Definition EventAfterPrivateMessageReport : Event := 10.
Definition EventAfterPrivateMessageRevoke : Event := 11.
Definition EventBeforeGroupCreate : Event := 12.
Definition EventAfterGroupCreate : Event := 13.
Definition EventBeforeApplyJoinGroup : Event := 14.
Definition EventBeforeInviteJoinGroup : Event := 15.
Definition EventAfterNewMemberJoinGroup : Event := 16.
Definition EventAfterMemberExitGroup : Event := 17.
Definition EventBeforeGroupMessageSend : Event := 18.
Definition EventAfterGroupMessageSend : Event := 19.
Definition EventAfterGroupFull : Event := 20.
Definition EventAfterGroupDestroyed : Event := 21.
Definition EventAfterGroupInfoChanged : Event := 22.

Definition ackSuccessStatus := "OK".
Definition ackFailureStatus := "FAIL".
Definition ackSuccessCode : Z := 0.
Definition ackFailureCode : Z := 1.

Definition queryAppId := "SdkAppid".
Definition queryCommand := "CallbackCommand".
Definition querySignRequestTime := "RequestTime".
Definition querySign := "Sign".

Definition http_StatusOK : Z := 200.

(** The payload struct a command is decoded into ([&StateChange{}] and so
    on). Only the names of these structs occur in the source file; their
    fields are declared elsewhere and are not needed here. *)
Inductive Shape :=
| StateChange | BeforeFriendAdd | BeforeFriendResponse | AfterFriendAdd
| AfterFriendDelete | AfterBlacklistAdd | AfterBlacklistDelete
| BeforePrivateMessageSend | AfterPrivateMessageSend
| AfterPrivateMessageReport | AfterPrivateMessageRevoke | BeforeGroupCreate
| AfterGroupCreate | BeforeApplyJoinGroup | BeforeInviteJoinGroup
| AfterNewMemberJoinGroup | AfterMemberExitGroup | BeforeGroupMessageSend
| AfterGroupMessageSend | AfterGroupFull | AfterGroupDestroyed
| AfterGroupInfoChanged.

#[global] Instance Shape_eq_dec : EqDecision Shape.
Proof. solve_decision. Defined.

(** The [switch command] of [parseCommand], its cases in source order. *)
Definition commandTable : list (string * (Event * Shape)) :=
  [ (commandStateChange, (EventStateChange, StateChange));
    (commandBeforeFriendAdd, (EventBeforeFriendAdd, BeforeFriendAdd));
    (commandBeforeFriendResponse, (EventBeforeFriendResponse, BeforeFriendResponse));
    (commandAfterFriendAdd, (EventAfterFriendAdd, AfterFriendAdd));
    (commandAfterFriendDelete, (EventAfterFriendDelete, AfterFriendDelete));
    (commandAfterBlacklistAdd, (EventAfterBlacklistAdd, AfterBlacklistAdd));
    (commandAfterBlacklistDelete, (EventAfterBlacklistDelete, AfterBlacklistDelete));
    (commandBeforePrivateMessageSend, (EventBeforePrivateMessageSend, BeforePrivateMessageSend));
    (commandAfterPrivateMessageSend, (EventAfterPrivateMessageSend, AfterPrivateMessageSend));
    (commandAfterPrivateMessageReport, (EventAfterPrivateMessageReport, AfterPrivateMessageReport));
    (commandAfterPrivateMessageRevoke, (EventAfterPrivateMessageRevoke, AfterPrivateMessageRevoke));
    (commandBeforeGroupCreate, (EventBeforeGroupCreate, BeforeGroupCreate));
    (commandAfterGroupCreate, (EventAfterGroupCreate, AfterGroupCreate));
    (commandBeforeApplyJoinGroup, (EventBeforeApplyJoinGroup, BeforeApplyJoinGroup));
    (commandBeforeInviteJoinGroup, (EventBeforeInviteJoinGroup, BeforeInviteJoinGroup));
    (commandAfterNewMemberJoinGroup, (EventAfterNewMemberJoinGroup, AfterNewMemberJoinGroup));
    (commandAfterMemberExitGroup, (EventAfterMemberExitGroup, AfterMemberExitGroup));
    (commandBeforeGroupMessageSend, (EventBeforeGroupMessageSend, BeforeGroupMessageSend));
    (commandAfterGroupMessageSend, (EventAfterGroupMessageSend, AfterGroupMessageSend));
    (commandAfterGroupFull, (EventAfterGroupFull, AfterGroupFull));
    (commandAfterGroupDestroyed, (EventAfterGroupDestroyed, AfterGroupDestroyed));
    (commandAfterGroupInfoChanged, (EventAfterGroupInfoChanged, AfterGroupInfoChanged)) ].

(** A [switch] takes the first case whose constant equals the tag. *)
Fixpoint switch {A} (cases : list (string * A)) (tag : string) : option A :=
  match cases with
  | [] => None
  | (k, v) :: rest => if String.eqb tag k then Some v else switch rest tag
  end.

(** Modelled from the spec: the struct [BaseResp] is declared outside the
    source file; these are the three fields [AckFailure] and [AckSuccess]
    assign, which the spec names as the response envelope
    (ActionStatus, ErrorCode, ErrorInfo). [BaseResp{}] is the zero value. *)
Record BaseResp := mkBaseResp {
  ActionStatus : string;
  ErrorCode : Z;
  ErrorInfo : string
}.

Definition BaseResp_zero : BaseResp := mkBaseResp "" 0 "".

(** ** What the package takes from outside

    [encoding/json], the payload structs and the errors of [io] and
    [encoding/json] are not part of the source file. The package is
    modelled over any implementation of them. *)
Class Platform := {
  (** the non-nil values [data] can hold after a successful
      [json.Unmarshal(body, &data)]: the filled payload structs *)
  Payload : Type;
  (** values an application hands to [Ack] *)
  AppValue : Type;
  (** error values produced by [encoding/json] and by reading the body *)
  LibError : Type;
  LibError_text : LibError -> string;
  (** [json.Unmarshal(body, &data)] with [data] a fresh pointer to the
      struct named by the shape: the error, or what [data] holds afterwards.
      That is [None], the nil interface, when the decoder finds the JSON
      literal null, which it stores into [data] itself. *)
  json_Unmarshal : bytes -> Shape -> option Payload + LibError;
  (** [b, _ := json.Marshal(v)] *)
  json_Marshal_BaseResp : BaseResp -> bytes;
  json_Marshal_AppValue : AppValue -> bytes
}.

Section Callback.
Context {P : Platform}.

(** The Go [error] values that occur in the package. *)
Inductive error :=
| errors_New (text : string)
| lib_error (e : LibError).

Definition Error (e : error) : string :=
  match e with
  | errors_New text => text
  | lib_error e => LibError_text e
  end.

(** The [interface{}] values passed to [Ack]. *)
Inductive Value :=
| VBaseResp (resp : BaseResp)
| VApp (v : AppValue).

Definition json_Marshal (v : Value) : bytes :=
  match v with
  | VBaseResp resp => json_Marshal_BaseResp resp
  | VApp v => json_Marshal_AppValue v
  end.

(** *** The response writer and the Ack responder *)

Inductive WEvent :=
| WriteHeader (statusCode : Z)
| Write (b : bytes).

(** The calls made on the [http.ResponseWriter], oldest first. *)
Definition ResponseWriter := list WEvent.

(** The [error] an Ack method returns is the one of [w.Write]; every
    caller in the package discards it, and it is left out. *)
Definition Ack (resp : Value) (w : ResponseWriter) : ResponseWriter :=
  let b := json_Marshal resp in
  let w := (w ++ [WriteHeader http_StatusOK])%list in
  (w ++ [Write b])%list.

Definition AckFailure (message : list string) (w : ResponseWriter) : ResponseWriter :=
  let resp := BaseResp_zero in
  let resp := mkBaseResp ackFailureStatus (ErrorCode resp) (ErrorInfo resp) in
  let resp := mkBaseResp (ActionStatus resp) ackFailureCode (ErrorInfo resp) in
  let resp :=
    match message with
    | m0 :: _ => mkBaseResp (ActionStatus resp) (ErrorCode resp) m0
    | [] => resp
    end in
  Ack (VBaseResp resp) w.

Definition AckSuccess (code : Z) (message : list string) (w : ResponseWriter)
  : ResponseWriter :=
  let resp := BaseResp_zero in
  let resp := mkBaseResp ackSuccessStatus (ErrorCode resp) (ErrorInfo resp) in
  let resp := mkBaseResp (ActionStatus resp) code (ErrorInfo resp) in
  let resp :=
    match message with
    | m0 :: _ => mkBaseResp (ActionStatus resp) (ErrorCode resp) m0
    | [] => resp
    end in
  Ack (VBaseResp resp) w.

(** *** Handlers

    An [EventHandlerFunc] is a func value supplied by the application:
    nil, or code. What the code does to the response it can only do through
    the [Ack] handle it is given, so it is modelled by the sequence of Ack
    calls it makes for a payload before it returns, or by [None] when for
    that payload it does not return (it panics or runs forever). Calling
    the nil func panics. *)
Inductive AckCall :=
| CallAck (resp : Value)
| CallAckFailure (message : list string)
| CallAckSuccess (code : Z) (message : list string).

Inductive EventHandlerFunc :=
| nilFunc
| func (body : option Payload -> option (list AckCall)).

Definition runAckCall (w : ResponseWriter) (call : AckCall) : ResponseWriter :=
  match call with
  | CallAck resp => Ack resp w
  | CallAckFailure message => AckFailure message w
  | CallAckSuccess code message => AckSuccess code message w
  end.

(** [fn(ctx, a, data)] with [a] writing to [w]: the response writer when
    the call returns, [None] when it does not. *)
Definition call (fn : EventHandlerFunc) (data : option Payload) (w : ResponseWriter)
  : option ResponseWriter :=
  match fn with
  | nilFunc => None
  | func body =>
      match body data with
      | Some calls => Some (fold_left runAckCall calls w)
      | None => None
      end
  end.

(** *** The callback object *)

Record callback := mkCallback {
  appId : Z;
  token : string;
  handlers : gmap Z EventHandlerFunc
}.

Definition NewCallback (appId : Z) (token : list string) : callback :=
  let ca := mkCallback appId "" ∅ in
  match token with
  | t0 :: _ => mkCallback (appId) t0 (handlers ca)
  | [] => ca
  end.

Definition abs (x : Z) : Z := if x <? 0 then neg64 x else x.

(** [now] is [time.Now().Unix()]. [None] is the [nil] error. *)
Definition signCheck (sign : string) (requestTime : Z) (token : string) (now : Z)
  : option error :=
  if 60 <=? abs (sub64 now requestTime)
  then Some (errors_New "request time expired")
  else
    let data := String.append token (strconv.FormatInt requestTime) in
    let signStr := hex.EncodeToString (sha256.Sum (bytes_of_string data)) in
    if negb (String.eqb sign signStr)
    then Some (errors_New "invalid signature")
    else None.

Definition Register (event : Event) (handler : EventHandlerFunc) (c : callback)
  : callback :=
  mkCallback (appId c) (token c) (<[event := handler]> (handlers c)).

(** *** Requests *)

Record Request := mkRequest {
  (** the decoded [key=value] pairs of [r.URL.RawQuery], in order *)
  RawQuery : list (string * string);
  (** the result of [ioutil.ReadAll(r.Body)] *)
  ReadAll : bytes * option error
}.

(** [None] is the run-time panic of [values[0]] on an empty slice. *)
Definition GetQuery (r : Request) (key : string) : option (string * bool) :=
  match Query (RawQuery r) !! key with
  | Some values =>
      match values with
      | v0 :: _ => Some (v0, true)
      | [] => None
      end
  | None => Some ("", false)
  end.

Definition parseCommand (command : string) (body : bytes)
  : Event * option Payload * option error :=
  match switch commandTable command with
  | None => (0, None, Some (errors_New "invalid callback command"))
  | Some (event, shape) =>
      match json_Unmarshal body shape with
      | inr err => (0, None, Some (lib_error err))
      | inl data => (event, data, None)
      end
  end.

(** *** Listen *)

(** What a call of [Listen] that returns leaves behind: the response
    writer, and the handler calls it made. *)
Record Outcome := mkOutcome {
  written : ResponseWriter;
  invoked : list (EventHandlerFunc * option Payload)
}.

Definition acked (w : ResponseWriter) : option Outcome := Some (mkOutcome w []).

(** [Listen] from the app-id check on (after the signature block). *)
Definition listenVerified (c : callback) (r : Request) (a : ResponseWriter)
  : option Outcome :=
  '(appId', ok) ← GetQuery r queryAppId;
  if negb ok || negb (String.eqb appId' (strconv.Itoa (appId c)))
  then acked (AckFailure ["invalid sdk appId"] a)
  else
    '(command, ok) ← GetQuery r queryCommand;
    if negb ok
    then acked (AckFailure ["invalid callback command"] a)
    else
      let '(body, err) := ReadAll r in
      match err with
      | Some err => acked (AckFailure [Error err] a)
      | None =>
          match parseCommand command body with
          | (_, _, Some err) => acked (AckFailure [Error err] a)
          | (event, data, None) =>
              match handlers c !! event with
              | Some fn =>
                  match call fn data a with
                  | Some a' => Some (mkOutcome a' [(fn, data)])
                  | None => None
                  end
              | None => acked (AckSuccess ackSuccessCode [] a)
              end
          end
      end.

(** [None] is a call that does not return (a panic, or a handler that
    does not return); [now] is the clock reading of [signCheck]. *)
Definition Listen (c : callback) (now : Z) (r : Request) (w : ResponseWriter)
  : option Outcome :=
  let a := w in
  if negb (String.eqb (token c) "")
  then
    '(sign, ok) ← GetQuery r querySign;
    if negb ok
    then acked (AckFailure ["invalid sign"] a)
    else
      '(requestTime, ok) ← GetQuery r querySignRequestTime;
      if negb ok
      then acked (AckFailure ["invalid request time"] a)
      else
        match strconv.ParseInt requestTime with
        | inr _ => acked (AckFailure ["parse request time err"] a)
        | inl requestTimeInt =>
            match signCheck sign requestTimeInt (token c) now with
            | Some err => acked (AckFailure [Error err] a)
            | None => listenVerified c r a
            end
        end
  else listenVerified c r a.

End Callback.

(** ** Package group

    The REST calls of package [group] (the first part of
    [src/group/api.go]) build a request struct, hand it to
    [a.client.Post(service, command, req, resp)] and turn the response struct
    into their result. Modelled here are the calls whose code does more than
    copy fields. The client is an interface implemented outside the file, and
    so are [enum.SuccessCode] and [core.NewError]; the request and response
    structs are declared outside the file too, and each is modelled with the
    fields the functions below assign or read. *)

Module deleteMembersReq.
Record t := mk { GroupId : string; UserIds : list string; Reason : string; Silence : Z }.
Definition zero : t := mk "" [] "" 0.
End deleteMembersReq.

Module getRolesInGroupReq.
Record t := mk { GroupId : string; UserIds : list string }.
End getRolesInGroupReq.

Module memberRole.
Record t := mk { UserId : string; Role : string }.
End memberRole.

Module getShuttedUpMembersReq.
Record t := mk { GroupId : string }.
End getShuttedUpMembersReq.

Module shuttedUp.
Record t := mk { UserId : string; ShuttedUntil : Z }.
End shuttedUp.

Module revokeMessagesReq.
Record t := mk { GroupId : string; MsgSeqList : list Z }.
End revokeMessagesReq.

Module recallRet.
Record t := mk { MsgSeq : Z; RetCode : Z }.
End recallRet.

Module group.

Definition serviceGroup := "group_open_http_svc".
Definition commandDeleteGroupMember := "delete_group_member".
Definition commandGetRoleInGroup := "get_role_in_group".
Definition commandGetGroupShuttedUin := "get_group_shutted_uin".
Definition commandRecallGroupMsg := "group_msg_recall".

(** The values passed for a variadic [...interface{}] parameter. *)
Inductive Any :=
| AnyString (v : string)
| AnyBool (v : bool)
| AnyOther.

#[global] Instance Any_eq_dec : EqDecision Any.
Proof. solve_decision. Defined.

(** The request structs handed to [Post]. *)
Inductive Req :=
| ReqDeleteMembers (req : deleteMembersReq.t)
| ReqGetRolesInGroup (req : getRolesInGroupReq.t)
| ReqGetShuttedUpMembers (req : getShuttedUpMembersReq.t)
| ReqRevokeMessages (req : revokeMessagesReq.t).

(** [core.Client], one field for each type of response struct that [Post]
    is given to fill: its error, or the list the function reads from the
    filled struct. [Post_action] is [Post] with [&types.ActionBaseResp{}],
    of which only the error is used. *)
Class Client := {
  ClientError : Type;
  (** [enum.SuccessCode] *)
  SuccessCode : Z;
  Post_action : string → string → Req → option ClientError;
  (** [resp.MemberRoleList] of a [getRolesInGroupResp] *)
  Post_roles : string → string → Req → list memberRole.t + ClientError;
  (** [resp.ShuttedUpList] of a [getShuttedUpMembersResp] *)
  Post_shuttedUps : string → string → Req → list shuttedUp.t + ClientError;
  (** [resp.RecallRetList] of a [revokeMessagesResp] *)
  Post_recall : string → string → Req → list recallRet.t + ClientError
}.

Section Api.
Context {client : Client}.

Inductive error :=
| client_error (e : ClientError)
| core_NewError (code : Z) (message : string).

(** The loop over [reasonAndSilence] in [DeleteMembers], at index [i]. *)
Fixpoint scanReasonAndSilence (i : nat) (vals : list Any) (req : deleteMembersReq.t)
  : deleteMembersReq.t :=
  match vals with
  | [] => req
  | val :: rest =>
      if (1 <? i)%nat then req
      else
        scanReasonAndSilence (S i) rest
          match val with
          | AnyString v =>
              deleteMembersReq.mk (deleteMembersReq.GroupId req)
                (deleteMembersReq.UserIds req) v (deleteMembersReq.Silence req)
          | AnyBool v =>
              if v
              then deleteMembersReq.mk (deleteMembersReq.GroupId req)
                     (deleteMembersReq.UserIds req) (deleteMembersReq.Reason req) 1
              else req
          | AnyOther => req
          end
  end.

Definition DeleteMembers (groupId : string) (userIds : list string)
    (reasonAndSilence : list Any) : option error :=
  let req := deleteMembersReq.zero in
  let req := deleteMembersReq.mk groupId (deleteMembersReq.UserIds req)
               (deleteMembersReq.Reason req) (deleteMembersReq.Silence req) in
  let req := deleteMembersReq.mk (deleteMembersReq.GroupId req) userIds
               (deleteMembersReq.Reason req) (deleteMembersReq.Silence req) in
  let req :=
    if (0 <? length reasonAndSilence)%nat
    then scanReasonAndSilence 0 reasonAndSilence req
    else req in
  match Post_action serviceGroup commandDeleteGroupMember (ReqDeleteMembers req) with
  | Some err => Some (client_error err)
  | None => None
  end.

(** A result map is [None] where the function returns it [nil]. *)
Definition GetRolesInGroup (groupId : string) (userIds : list string)
  : option (gmap string string) * option error :=
  let req := getRolesInGroupReq.mk groupId userIds in
  match Post_roles serviceGroup commandGetRoleInGroup (ReqGetRolesInGroup req) with
  | inr err => (None, Some (client_error err))
  | inl MemberRoleList =>
      (Some (fold_left
               (λ memberRoles item,
                  <[memberRole.UserId item := memberRole.Role item]> memberRoles)
               MemberRoleList ∅),
       None)
  end.

Definition GetShuttedUpMembers (groupId : string)
  : option (gmap string Z) * option error :=
  let req := getShuttedUpMembersReq.mk groupId in
  match Post_shuttedUps serviceGroup commandGetGroupShuttedUin
          (ReqGetShuttedUpMembers req) with
  | inr err => (None, Some (client_error err))
  | inl ShuttedUpList =>
      (Some (fold_left
               (λ shuttedUps item,
                  <[shuttedUp.UserId item := shuttedUp.ShuttedUntil item]> shuttedUps)
               ShuttedUpList ∅),
       None)
  end.

Definition RevokeMessages (groupId : string) (msgSeq : list Z)
  : option (gmap Z Z) * option error :=
  let MsgSeqList := fold_left (λ l seq, (l ++ [seq])%list) msgSeq [] in
  let req := revokeMessagesReq.mk groupId MsgSeqList in
  match Post_recall serviceGroup commandRecallGroupMsg (ReqRevokeMessages req) with
  | inr err => (None, Some (client_error err))
  | inl RecallRetList =>
      (Some (fold_left
               (λ results item,
                  <[recallRet.MsgSeq item := recallRet.RetCode item]> results)
               RecallRetList ∅),
       None)
  end.

(** Reading a [map[int]int], [nil] or not, at a key that may be missing. *)
Definition index (results : option (gmap Z Z)) (key : Z) : Z :=
  default 0 (results ≫= (.!! key)).

Definition RevokeMessage (groupId : string) (msgSeq : Z) : option error :=
  match RevokeMessages groupId [msgSeq] with
  | (_, Some err) => Some err
  | (results, None) =>
      if negb (index results msgSeq =? SuccessCode)
      then Some (core_NewError (index results msgSeq) "message revoke failed")
      else None
  end.

End Api.

End group.

(** ** Auxiliary definitions used in the statements *)

(** The values a query string gives for [key], in order of appearance. *)
Definition valuesOf (key : string) (pairs : list (string * string)) : list string :=
  (filter (λ p, p.1 = key) pairs).*2.

(** Number of bodies written to the response. *)
Definition isWrite `{Platform} (e : WEvent) : bool :=
  match e with
  | Write _ => true
  | WriteHeader _ => false
  end.

Definition bodiesWritten `{Platform} (w : ResponseWriter) : nat :=
  length (List.filter isWrite w).

(** A query string with every [Sign] and [RequestTime] pair removed. *)
Definition withoutSignature (pairs : list (string * string)) : list (string * string) :=
  filter (λ p, p.1 ≠ querySign ∧ p.1 ≠ querySignRequestTime) pairs.

(** The digest [signCheck] compares the presented signature with. *)
Definition expectedSign (token : string) (requestTime : Z) : string :=
  hex.EncodeToString
    (sha256.Sum (bytes_of_string (token +:+ strconv.FormatInt requestTime))).

(** The request got past the signature block of [Listen]. *)
Definition signatureAccepted `{Platform} (c : callback) (now : Z) (r : Request) : Prop :=
  token c = "" ∨
  ∃ sign requestTime requestTimeInt,
    GetQuery r querySign = Some (sign, true) ∧
    GetQuery r querySignRequestTime = Some (requestTime, true) ∧
    strconv.ParseInt requestTime = inl requestTimeInt ∧
    signCheck sign requestTimeInt (token c) now = None.

(** The Ack calls a handler makes when called with [data], [None] when
    the call does not return. *)
Definition ackCalls `{Platform} (fn : EventHandlerFunc) (data : option Payload)
  : option (list AckCall) :=
  match fn with
  | nilFunc => None
  | func body => body data
  end.

(** A handler that makes the given Ack calls, whatever the payload, and
    returns. *)
Definition handlerOf `{Platform} (calls : list AckCall) : EventHandlerFunc :=
  func (λ _, Some calls).

(** [fn(ctx, a, data); return] as the last step of [Listen]: one call of
    [fn], whose return is the return of [Listen]. *)
Definition dispatch `{Platform} (fn : EventHandlerFunc) (data : option Payload)
    (w : ResponseWriter) : option Outcome :=
  (λ w', mkOutcome w' [(fn, data)]) <$> call fn data w.

(** The request passes every check of [Listen] and resolves to an event
    for which [fn] is registered; [data] is what its body decodes to. *)
Definition dispatches `{Platform} (c : callback) (now : Z) (r : Request)
    (fn : EventHandlerFunc) (data : option Payload) : Prop :=
  signatureAccepted c now r ∧
  GetQuery r queryAppId = Some (strconv.Itoa (appId c), true) ∧
  ∃ command body event,
    GetQuery r queryCommand = Some (command, true) ∧
    ReadAll r = (body, None) ∧
    parseCommand command body = (event, data, None) ∧
    handlers c !! event = Some fn.

(** The three ways a call of [Listen] can end: a failure envelope written
    by [Listen], the success envelope written by [Listen] for an event
    without handler, or a single call of the registered handler, which
    alone writes the response. *)
Inductive ListenEnds `{Platform} (c : callback) (w : ResponseWriter)
  : option Outcome → Prop :=
| EndsFailure (message : string) :
    ListenEnds c w (acked (AckFailure [message] w))
| EndsUnhandled (event : Event) :
    handlers c !! event = None →
    ListenEnds c w (acked (AckSuccess ackSuccessCode [] w))
| EndsDispatched (event : Event) (fn : EventHandlerFunc) (data : option Payload) :
    handlers c !! event = Some fn →
    ListenEnds c w (dispatch fn data w).

(** The request carries a command and a readable body that
    [parseCommand] resolves to [event]. *)
Definition resolves `{Platform} (r : Request) (event : Event) : Prop :=
  ∃ command body data,
    GetQuery r queryCommand = Some (command, true) ∧
    ReadAll r = (body, None) ∧
    parseCommand command body = (event, data, None).

(** One acknowledgement on the wire: the status line, then the body. *)
Definition ackWritten `{Platform} (body : bytes) : list WEvent :=
  [WriteHeader http_StatusOK; Write body].

(** The string held by an [interface{}] value, if it holds one. *)
Definition asString (v : group.Any) : option string :=
  match v with
  | group.AnyString s => Some s
  | _ => None
  end.

(** A small client to run the group calls on: it accepts every action,
    knows two members of every group, one of them listed twice, and
    recalls every message but number 7, which it refuses with code 10030,
    and number 9, which it leaves out of its answer. *)
#[local] Instance sampleClient : group.Client := {|
  group.ClientError := string;
  group.SuccessCode := 0;
  group.Post_action _ _ _ := None;
  group.Post_roles _ _ _ :=
    inl [memberRole.mk "alice" "Admin"; memberRole.mk "bob" "Member";
         memberRole.mk "alice" "Owner"];
  group.Post_shuttedUps _ _ _ := inr "network unreachable";
  group.Post_recall _ _ req :=
    match req with
    | group.ReqRevokeMessages req =>
        inl (map (λ seq, recallRet.mk seq (if seq =? 7 then 10030 else 0))
               (List.filter (λ seq, negb (seq =? 9)) (revokeMessagesReq.MsgSeqList req)))
    | _ => inr "bad request"
    end
|}.

(** A small platform to run the model on concrete requests: payloads are
    the body text itself, which decodes unless it is empty, and to nil when
    it is the literal null; the envelope is printed with its three
    fields. *)
Definition sampleEnvelope (resp : BaseResp) : string :=
  String.concat ""
    ["{'ActionStatus':'"; ActionStatus resp; "','ErrorCode':";
     strconv.Itoa (ErrorCode resp); ",'ErrorInfo':'"; ErrorInfo resp; "'}"].

#[local] Instance samplePlatform : Platform := {|
  Payload := string;
  AppValue := string;
  LibError := string;
  LibError_text := id;
  json_Unmarshal body _ :=
    match body with
    | [] => inr "unexpected end of JSON input"
    | _ =>
        if String.eqb (string_of_list_byte body) "null" then inl None
        else inl (Some (string_of_list_byte body))
    end;
  json_Marshal_BaseResp resp := bytes_of_string (sampleEnvelope resp);
  json_Marshal_AppValue v := bytes_of_string v
|}.

Definition sampleRequest (query : list (string * string)) (body : string)
  : Request (P := samplePlatform) :=
  mkRequest query (bytes_of_string body, None).

(** * Properties *)

(** ** Test vectors for the library models *)

Example sha256_abc :
  hex.EncodeToString (sha256.Sum (bytes_of_string "abc"))
  = "ba7816bf8f01cfea414140de5dae2223b00361a396177a9cb410ff61f20015ad".
Proof. vm_compute. reflexivity. Qed.

Example sha256_empty :
  hex.EncodeToString (sha256.Sum [])
  = "e3b0c44298fc1c149afbf4c8996fb92427ae41e4649b934ca495991b7852b855".
Proof. vm_compute. reflexivity. Qed.

Example sha256_two_blocks :
  hex.EncodeToString
    (sha256.Sum (bytes_of_string "abcdbcdecdefdefgefghfghighijhijkijkljklmklmnlmnomnopnopq"))
  = "248d6a61d20638b8e5c026930c3e6039a33ce45964ff2167f6ecedd419db06c1".
Proof. vm_compute. reflexivity. Qed.

Example FormatInt_samples :
  map strconv.FormatInt [0; 7; 10; 140000000; -61; int64.max; int64.min]
  = ["0"; "7"; "10"; "140000000"; "-61"; "9223372036854775807"; "-9223372036854775808"].
Proof. vm_compute. reflexivity. Qed.

Example ParseInt_samples :
  map strconv.ParseInt
      [""; "-"; "+"; "12a"; "007"; "+5"; "-61"; "9223372036854775807";
       "9223372036854775808"; "-9223372036854775808"; "-9223372036854775809";
       "99999999999999999999999x"; "1_000"]
  = [inr strconv.ErrSyntax; inr strconv.ErrSyntax; inr strconv.ErrSyntax;
     inr strconv.ErrSyntax; inl 7; inl 5; inl (-61); inl int64.max;
     inr strconv.ErrRange; inl int64.min; inr strconv.ErrRange;
     inr strconv.ErrRange; inr strconv.ErrSyntax].
Proof. vm_compute. reflexivity. Qed.

(** ** Fixed-width arithmetic *)

Lemma wrap64_in_range x : int64.in_range x → wrap64 x = x.
Proof.
  unfold int64.in_range, int64.min, int64.max, wrap64. intros Hx.
  rewrite Z.mod_small; lia.
Qed.

Lemma wrap64_range x : int64.in_range (wrap64 x).
Proof.
  unfold int64.in_range, int64.min, int64.max, wrap64.
  pose proof (Z.mod_pos_bound (x + 2 ^ 63) (2 ^ 64) ltac:(lia)). lia.
Qed.

Lemma abs_in_range x :
  int64.min < x ≤ int64.max → abs x = Z.abs x.
Proof.
  unfold abs, neg64, int64.min, int64.max. intros Hx.
  destruct (Z.ltb_spec x 0).
  - rewrite wrap64_in_range; [lia|]. unfold int64.in_range, int64.min, int64.max. lia.
  - lia.
Qed.

Lemma abs_min : abs int64.min = int64.min.
Proof. reflexivity. Qed.

(** Without overflow the test of [signCheck] is the test on the true
    distance of the two times. *)
Lemma abs_sub64_exact now requestTime :
  - 2 ^ 63 < now - requestTime < 2 ^ 63 →
  abs (sub64 now requestTime) = Z.abs (now - requestTime).
Proof.
  intros Hd. unfold sub64.
  rewrite wrap64_in_range by (unfold int64.in_range, int64.min, int64.max; lia).
  apply abs_in_range. unfold int64.min, int64.max. lia.
Qed.

(** ** The query multimap *)

Lemma parseQuery_lookup m pairs key :
  parseQuery m pairs !! key =
  match valuesOf key pairs with
  | [] => m !! key
  | vs => Some (default [] (m !! key) ++ vs)%list
  end.
Proof.
  revert m. induction pairs as [|[k v] rest IH]; intros m; [done|].
  cbn [parseQuery]. rewrite IH. unfold valuesOf.
  rewrite filter_cons. cbn [fst]. destruct (decide (k = key)) as [->|Hne].
  - rewrite fmap_cons. cbn [snd]. rewrite lookup_insert_eq. cbn [default].
    destruct ((filter _ rest).*2) as [|v' vs']; [done|].
    f_equal. unfold id. by rewrite <- app_assoc.
  - by rewrite lookup_insert_ne.
Qed.

Lemma Query_lookup pairs key :
  Query pairs !! key =
  match valuesOf key pairs with
  | [] => None
  | vs => Some vs
  end.
Proof.
  unfold Query. rewrite parseQuery_lookup, lookup_empty.
  by destruct (valuesOf key pairs).
Qed.

(** [GetQuery] never indexes an empty slice: it returns the first value of
    a key that occurs, and [("", false)] for one that does not. *)
Lemma GetQuery_spec `{Platform} (r : Request) key :
  GetQuery r key =
  Some match valuesOf key (RawQuery r) with
       | v0 :: _ => (v0, true)
       | [] => ("", false)
       end.
Proof.
  unfold GetQuery. rewrite Query_lookup.
  by destruct (valuesOf key (RawQuery r)).
Qed.

(** ** The switch of parseCommand *)

Lemma switch_Some {A} (cases : list (string * A)) tag v :
  switch cases tag = Some v → (tag, v) ∈ cases.
Proof.
  induction cases as [|[k a] rest IH]; cbn; [done|].
  destruct (String.eqb_spec tag k) as [->|Hne].
  - intros [= ->]. left.
  - intros Hs. right. by apply IH.
Qed.

Lemma switch_None {A} (cases : list (string * A)) tag :
  switch cases tag = None ↔ tag ∉ cases.*1.
Proof.
  induction cases as [|[k a] rest IH]; cbn.
  - split; [intros _; apply not_elem_of_nil | done].
  - destruct (String.eqb_spec tag k) as [->|Hne].
    + split; [done|]. intros Hn. exfalso. apply Hn. left.
    + rewrite IH, not_elem_of_cons. split; [by intros ? | by intros [_ ?]].
Qed.

Lemma switch_NoDup {A} (cases : list (string * A)) tag v :
  NoDup cases.*1 → (tag, v) ∈ cases → switch cases tag = Some v.
Proof.
  induction cases as [|[k a] rest IH]; cbn.
  - intros _ Hin. by apply elem_of_nil in Hin.
  - intros Hnd Hin. apply NoDup_cons in Hnd as [Hk Hnd].
    apply elem_of_cons in Hin as [[= -> ->]|Hin].
    + by rewrite String.eqb_refl.
    + destruct (String.eqb_spec tag k) as [->|Hne]; [|by apply IH].
      exfalso. apply Hk. apply list_elem_of_fmap. by exists (k, v).
Qed.

Lemma commandTable_NoDup_commands : NoDup commandTable.*1.
Proof. apply (bool_decide_unpack _). vm_compute. exact I. Qed.

Lemma commandTable_NoDup_events : NoDup ((λ entry, entry.2.1) <$> commandTable).
Proof. apply (bool_decide_unpack _). vm_compute. exact I. Qed.

Lemma commandTable_NoDup_shapes : NoDup ((λ entry, entry.2.2) <$> commandTable).
Proof. apply (bool_decide_unpack _). vm_compute. exact I. Qed.

(** ** signCheck *)

Lemma signCheck_None_iff `{Platform} sign requestTime token now :
  signCheck sign requestTime token now = None ↔
  sign = expectedSign token requestTime ∧ abs (sub64 now requestTime) < 60.
Proof.
  unfold signCheck, expectedSign.
  destruct (Z.leb_spec 60 (abs (sub64 now requestTime))) as [Hexp|Hok].
  - split; [done | lia].
  - destruct (String.eqb_spec sign
      (hex.EncodeToString (sha256.Sum (bytes_of_string (token +:+ strconv.FormatInt requestTime)))))
      as [Heq|Hne]; cbn.
    + done.
    + split; [done | by intros [? _]].
Qed.

(** When the subtraction does not overflow, [signCheck] accepts exactly the
    correct digest presented within 60 seconds of the clock. *)
Lemma signCheck_exact `{Platform} sign requestTime token now :
  - 2 ^ 63 < now - requestTime < 2 ^ 63 →
  signCheck sign requestTime token now = None ↔
  sign = expectedSign token requestTime ∧ Z.abs (now - requestTime) < 60.
Proof.
  intros Hd. rewrite signCheck_None_iff. by rewrite abs_sub64_exact.
Qed.

(** On [int64] inputs in general, the expiry test lets through the
    timestamps within 60 seconds, and those whose distance overflows to the
    least [int64] or wraps around to a small number. *)
Lemma abs_sub64_lt_60 now requestTime :
  int64.in_range now → int64.in_range requestTime →
  abs (sub64 now requestTime) < 60 ↔
  Z.abs (now - requestTime) < 60 ∨
  Z.abs (now - requestTime) = 2 ^ 63 ∨
  2 ^ 64 - 60 < Z.abs (now - requestTime).
Proof.
  unfold int64.in_range, int64.min, int64.max, abs, neg64, sub64, wrap64.
  intros Hn Hr.
  destruct (Z.ltb_spec ((now - requestTime + 2 ^ 63) mod 2 ^ 64 - 2 ^ 63) 0);
    Z.div_mod_to_equations; lia.
Qed.

Lemma signCheck_int64 `{Platform} sign requestTime token now :
  int64.in_range now → int64.in_range requestTime →
  signCheck sign requestTime token now = None ↔
  sign = expectedSign token requestTime ∧
  (Z.abs (now - requestTime) < 60 ∨
   Z.abs (now - requestTime) = 2 ^ 63 ∨
   2 ^ 64 - 60 < Z.abs (now - requestTime)).
Proof.
  intros Hn Hr. rewrite signCheck_None_iff. by rewrite abs_sub64_lt_60.
Qed.

Lemma signCheck_fresh `{Platform} token t0 :
  signCheck (expectedSign token t0) t0 token t0 = None.
Proof.
  apply signCheck_None_iff. split; [done|].
  unfold sub64. by rewrite Z.sub_diag.
Qed.

Lemma signCheck_stale `{Platform} sign token t0 :
  int64.min + 61 ≤ t0 ≤ int64.max →
  signCheck sign (t0 - 61) token t0 = Some (errors_New "request time expired").
Proof.
  unfold int64.min, int64.max. intros Ht. unfold signCheck.
  rewrite abs_sub64_exact by lia.
  by replace (t0 - (t0 - 61)) with 61 by lia.
Qed.

Lemma signCheck_wrong_sign `{Platform} sign requestTime token now :
  sign ≠ expectedSign token requestTime →
  signCheck sign requestTime token now ≠ None.
Proof. rewrite signCheck_None_iff. by intros Hne [? _]. Qed.

(** C1 (fails on the code). The specification says a request is accepted
    only if the current time and the claimed timestamp are less than 60
    seconds apart. At clock reading 1700000000 the timestamp
    -9223372035154775808, which [strconv.ParseInt] accepts, is 2^63 seconds
    away; [now - requestTime] overflows to the least [int64], of which [abs]
    returns the same negative number, so the expiry test does not fire and
    [signCheck] accepts the request with the digest for that timestamp. *)
Theorem signCheck_accepts_overflowing_distance `{Platform} :
  let now := 1700000000 in
  let requestTime := -9223372035154775808 in
  int64.in_range now ∧
  strconv.ParseInt "-9223372035154775808" = inl requestTime ∧
  Z.abs (now - requestTime) = 2 ^ 63 ∧
  abs (sub64 now requestTime) = int64.min ∧
  signCheck (expectedSign "T" requestTime) requestTime "T" now = None.
Proof.
  cbv zeta. repeat split; vm_compute; congruence.
Qed.

(** ** The command registry *)

Lemma NoDup_fmap_eq {A B} (f : A → B) (l : list A) x y :
  NoDup (f <$> l) → x ∈ l → y ∈ l → f x = f y → x = y.
Proof.
  induction l as [|a l IH]; cbn.
  - intros _ Hx. by apply elem_of_nil in Hx.
  - intros Hnd Hx Hy Hf. apply NoDup_cons in Hnd as [Ha Hnd].
    apply elem_of_cons in Hx as [->|Hx]; apply elem_of_cons in Hy as [->|Hy].
    + done.
    + exfalso. apply Ha. rewrite Hf. by apply list_elem_of_fmap_2.
    + exfalso. apply Ha. rewrite <- Hf. by apply list_elem_of_fmap_2.
    + by apply IH.
Qed.

Lemma parseCommand_known `{Platform} command event shape body :
  (command, (event, shape)) ∈ commandTable →
  parseCommand command body =
  match json_Unmarshal body shape with
  | inl data => (event, data, None)
  | inr err => (0, None, Some (lib_error err))
  end.
Proof.
  intros Hin. unfold parseCommand.
  by rewrite (switch_NoDup _ _ _ commandTable_NoDup_commands Hin).
Qed.

Lemma parseCommand_unknown `{Platform} command body :
  command ∉ commandTable.*1 →
  parseCommand command body = (0, None, Some (errors_New "invalid callback command")).
Proof.
  intros Hout. unfold parseCommand.
  by rewrite (proj2 (switch_None _ _) Hout).
Qed.

Lemma commandTable_events_range :
  Forall (λ entry, 1 ≤ entry.2.1 ≤ 22) commandTable.
Proof. apply (bool_decide_unpack _). vm_compute. exact I. Qed.

(** C2. The registry is a static table of 22 distinct command strings.
    [parseCommand] on a command of the table decodes the body into the
    shape of its entry and, when decoding succeeds, returns the entry's
    event (an event between 1 and 22) with what the body decoded to; no
    two entries share an event or a shape; any other command returns event 0, no
    payload and the error "invalid callback command"; and the error of a
    failed decode is the decoder's own, a different error value. *)
Theorem parseCommand_registry `{Platform} :
  length commandTable = 22%nat ∧
  NoDup commandTable.*1 ∧
  (∀ command event shape body,
      (command, (event, shape)) ∈ commandTable →
      1 ≤ event ≤ 22 ∧
      parseCommand command body =
      match json_Unmarshal body shape with
      | inl data => (event, data, None)
      | inr err => (0, None, Some (lib_error err))
      end) ∧
  (∀ c1 c2 e1 e2 s1 s2,
      (c1, (e1, s1)) ∈ commandTable → (c2, (e2, s2)) ∈ commandTable →
      e1 = e2 ∨ s1 = s2 → c1 = c2 ∧ e1 = e2 ∧ s1 = s2) ∧
  (∀ command body,
      command ∉ commandTable.*1 →
      parseCommand command body
      = (0, None, Some (errors_New "invalid callback command"))) ∧
  (∀ command body event data err,
      command ∈ commandTable.*1 →
      parseCommand command body = (event, data, Some err) →
      event = 0 ∧ data = None ∧
      err ≠ errors_New "invalid callback command" ∧
      ∃ shape e, switch commandTable command = Some shape
                 ∧ json_Unmarshal body shape.2 = inr e ∧ err = lib_error e).
Proof.
  split; [reflexivity|]. split; [apply commandTable_NoDup_commands|].
  split; [|split; [|split]].
  - intros command event shape body Hin. split.
    + pose proof commandTable_events_range as Hr.
      rewrite Forall_forall in Hr. apply (Hr _ Hin).
    + by apply parseCommand_known.
  - intros c1 c2 e1 e2 s1 s2 H1 H2 [He|Hs].
    + assert ((c1, (e1, s1)) = (c2, (e2, s2))) as [= -> -> ->]; [|done].
      apply (NoDup_fmap_eq (λ entry, entry.2.1) commandTable); [|done..].
      apply commandTable_NoDup_events.
    + assert ((c1, (e1, s1)) = (c2, (e2, s2))) as [= -> -> ->]; [|done].
      apply (NoDup_fmap_eq (λ entry, entry.2.2) commandTable); [|done..].
      apply commandTable_NoDup_shapes.
  - intros. by apply parseCommand_unknown.
  - intros command body event data err Hin. unfold parseCommand.
    destruct (switch commandTable command) as [[ev shape]|] eqn:Hsw.
    + destruct (json_Unmarshal body shape) as [d|e] eqn:Hdec; [done|].
      intros [= <- <- <-]. repeat split; [done|]. by exists (ev, shape), e.
    + apply switch_None in Hsw. done.
Qed.

Lemma parseCommand_registry_witness :
  parseCommand (P := samplePlatform) "Group.CallbackAfterCreateGroup"
    (bytes_of_string "{'GroupId':'@TGS#1'}")
  = (EventAfterGroupCreate, Some "{'GroupId':'@TGS#1'}", None)
  ∧ parseCommand (P := samplePlatform) "Group.CallbackAfterCreateGroup" []
    = (0, None, Some (lib_error "unexpected end of JSON input"))
  ∧ parseCommand (P := samplePlatform) "Group.callbackaftercreategroup" []
    = (0, None, Some (errors_New "invalid callback command")).
Proof.
  destruct (parseCommand_registry (H := samplePlatform))
    as (_ & _ & Hin & _ & Hout & _).
  assert (("Group.CallbackAfterCreateGroup", (EventAfterGroupCreate, AfterGroupCreate))
          ∈ commandTable) as Hmem
    by (apply (bool_decide_unpack _); vm_compute; exact I).
  split; [|split].
  - by rewrite (proj2 (Hin _ _ _ _ Hmem)).
  - by rewrite (proj2 (Hin _ _ _ _ Hmem)).
  - apply Hout. apply (bool_decide_unpack _). vm_compute. exact I.
Defined.

(** ** The Ack responder *)

Lemma Ack_spec `{Platform} resp w :
  Ack resp w = (w ++ [WriteHeader 200; Write (json_Marshal resp)])%list.
Proof. unfold Ack. by rewrite <- app_assoc. Qed.

Lemma AckSuccess_spec `{Platform} code message w :
  AckSuccess code message w
  = Ack (VBaseResp (mkBaseResp "OK" code (hd "" message))) w.
Proof. by destruct message. Qed.

Lemma AckFailure_spec `{Platform} message w :
  AckFailure message w
  = Ack (VBaseResp (mkBaseResp "FAIL" 1 (hd "" message))) w.
Proof. by destruct message. Qed.

(** C3. Each Ack method appends to the response exactly one
    [WriteHeader(200)] followed by one [Write] of the marshalled value:
    the supplied value for [Ack]; the envelope (OK, code, first message or
    empty) for [AckSuccess]; the envelope (FAIL, 1, first message or empty)
    for [AckFailure]. No status other than 200 is ever written by them. *)
Theorem Ack_always_200 `{Platform} :
  (∀ resp w,
      Ack resp w = (w ++ [WriteHeader 200; Write (json_Marshal resp)])%list) ∧
  (∀ code message w,
      AckSuccess code message w
      = (w ++ [WriteHeader 200;
               Write (json_Marshal
                        (VBaseResp (mkBaseResp "OK" code (hd "" message))))])%list) ∧
  (∀ message w,
      AckFailure message w
      = (w ++ [WriteHeader 200;
               Write (json_Marshal
                        (VBaseResp (mkBaseResp "FAIL" 1 (hd "" message))))])%list) ∧
  (∀ call w statusCode,
      WriteHeader statusCode ∈ runAckCall w call →
      WriteHeader statusCode ∈ w ∨ statusCode = 200).
Proof.
  split; [apply Ack_spec|].
  split; [intros; by rewrite AckSuccess_spec, Ack_spec|].
  split; [intros; by rewrite AckFailure_spec, Ack_spec|].
  intros call w statusCode. destruct call; cbn [runAckCall];
    rewrite ?AckSuccess_spec, ?AckFailure_spec, Ack_spec;
    rewrite elem_of_app, !elem_of_cons, elem_of_nil;
    intros [?|[[= ->]|[?|[]]]]; auto; done.
Qed.

Lemma Ack_always_200_witness :
  AckSuccess (P := samplePlatform) 0 [] []
  = [WriteHeader 200;
     Write (bytes_of_string "{'ActionStatus':'OK','ErrorCode':0,'ErrorInfo':''}")]
  ∧ AckFailure (P := samplePlatform) ["invalid sdk appId"; "ignored"] []
    = [WriteHeader 200;
       Write (bytes_of_string
                "{'ActionStatus':'FAIL','ErrorCode':1,'ErrorInfo':'invalid sdk appId'}")]
  ∧ (WriteHeader 200 ∈ runAckCall (P := samplePlatform) [] (CallAck (VApp "[]"))
     → WriteHeader 200 ∈ @nil WEvent ∨ 200 = 200).
Proof.
  destruct (Ack_always_200 (H := samplePlatform)) as (_ & Hs & Hf & Hc).
  split; [|split].
  - by rewrite Hs.
  - by rewrite Hf.
  - apply Hc.
Defined.

(** ** Listen *)

Lemma bodiesWritten_Ack `{Platform} resp w :
  bodiesWritten (Ack resp w) = S (bodiesWritten w).
Proof.
  rewrite Ack_spec. unfold bodiesWritten.
  rewrite List.filter_app, length_app. cbn. lia.
Qed.

(** The signature block either hands over to the rest of [Listen] or ends
    the request with a failure envelope. *)
Lemma Listen_sign_block `{Platform} c now r w :
  Listen c now r w = listenVerified c r w ∨
  ∃ message, token c ≠ "" ∧ Listen c now r w = acked (AckFailure [message] w).
Proof.
  unfold Listen. destruct (String.eqb_spec (token c) "") as [Ht|Ht]; cbn; [by left|].
  rewrite !GetQuery_spec.
  destruct (valuesOf querySign (RawQuery r)) as [|sign ?]; cbn; [right; eauto|].
  destruct (valuesOf querySignRequestTime (RawQuery r)) as [|requestTime ?]; cbn;
    [right; eauto|].
  destruct (strconv.ParseInt requestTime) as [requestTimeInt|?]; [|right; eauto].
  destruct (signCheck sign requestTimeInt (token c) now); [right; eauto | by left].
Qed.

Lemma Listen_no_token `{Platform} c now r w :
  token c = "" → Listen c now r w = listenVerified c r w.
Proof. intros Ht. unfold Listen. by rewrite Ht. Qed.

Lemma Listen_signatureAccepted `{Platform} c now r w :
  signatureAccepted c now r → Listen c now r w = listenVerified c r w.
Proof.
  intros [Ht|(sign & requestTime & requestTimeInt & Hs & Ht & Hp & Hc)].
  - by apply Listen_no_token.
  - unfold Listen. destruct (String.eqb (token c) ""); cbn; [done|].
    rewrite Hs. cbn. rewrite Ht. cbn. by rewrite Hp, Hc.
Qed.

Lemma listenVerified_ends `{Platform} c r w :
  ListenEnds c w (listenVerified c r w).
Proof.
  unfold listenVerified. rewrite !GetQuery_spec.
  destruct (valuesOf queryAppId (RawQuery r)) as [|appId' ?]; cbn; [constructor|].
  destruct (String.eqb appId' (strconv.Itoa (appId c))); cbn; [|constructor].
  destruct (valuesOf queryCommand (RawQuery r)) as [|command ?]; cbn; [constructor|].
  destruct (ReadAll r) as [body [err|]]; [constructor|].
  destruct (parseCommand command body) as [[event data] [err|]]; [constructor|].
  destruct (handlers c !! event) as [fn|] eqn:Hfn; [|by econstructor].
  change (ListenEnds c w (dispatch fn data w)). by econstructor.
Qed.

Lemma Listen_ends `{Platform} c now r w : ListenEnds c w (Listen c now r w).
Proof.
  destruct (Listen_sign_block c now r w) as [->|(message & _ & ->)].
  - apply listenVerified_ends.
  - constructor.
Qed.

(** Past the checks, [Listen] looks the event up in the handler table. *)
Lemma listenVerified_dispatch `{Platform} c r w command body event data :
  GetQuery r queryAppId = Some (strconv.Itoa (appId c), true) →
  GetQuery r queryCommand = Some (command, true) →
  ReadAll r = (body, None) →
  parseCommand command body = (event, data, None) →
  listenVerified c r w =
  match handlers c !! event with
  | Some fn => dispatch fn data w
  | None => acked (AckSuccess ackSuccessCode [] w)
  end.
Proof.
  intros Ha Hc Hb Hp. unfold listenVerified.
  rewrite Ha. cbn. rewrite String.eqb_refl. cbn.
  rewrite Hc. cbn. by rewrite Hb, Hp.
Qed.

Lemma listenVerified_unknown `{Platform} c r w command :
  GetQuery r queryCommand = Some (command, true) →
  command ∉ commandTable.*1 →
  ∃ message, listenVerified c r w = acked (AckFailure [message] w).
Proof.
  intros Hc Hout. unfold listenVerified. rewrite Hc.
  rewrite GetQuery_spec.
  destruct (valuesOf queryAppId (RawQuery r)) as [|appId' ?]; cbn; [eauto|].
  destruct (String.eqb appId' (strconv.Itoa (appId c))); cbn; [|eauto].
  destruct (ReadAll r) as [body [err|]]; [eauto|].
  rewrite parseCommand_unknown by done. eauto.
Qed.

Lemma listenVerified_ext `{Platform} c r1 r2 w :
  GetQuery r1 queryAppId = GetQuery r2 queryAppId →
  GetQuery r1 queryCommand = GetQuery r2 queryCommand →
  ReadAll r1 = ReadAll r2 →
  listenVerified c r1 w = listenVerified c r2 w.
Proof. intros Ha Hc Hb. unfold listenVerified. by rewrite Ha, Hc, Hb. Qed.

Lemma call_ackCalls `{Platform} fn data w :
  call fn data w = (λ calls, fold_left runAckCall calls w) <$> ackCalls fn data.
Proof. destruct fn as [|body]; [done|]. cbn. by destruct (body data). Qed.

Lemma bodiesWritten_calls `{Platform} calls w :
  bodiesWritten (fold_left runAckCall calls w)
  = (bodiesWritten w + length calls)%nat.
Proof.
  revert w. induction calls as [|a calls IH]; intros w; cbn [fold_left length]; [lia|].
  rewrite IH. destruct a; cbn [runAckCall];
    rewrite ?AckSuccess_spec, ?AckFailure_spec, bodiesWritten_Ack; lia.
Qed.

Lemma dispatches_Listen `{Platform} c now r w fn data :
  dispatches c now r fn data → Listen c now r w = dispatch fn data w.
Proof.
  intros (Hacc & Ha & command & body & event & Hc & Hb & Hp & Hh).
  rewrite (Listen_signatureAccepted _ _ _ _ Hacc).
  by rewrite (listenVerified_dispatch _ _ _ _ _ _ _ Ha Hc Hb Hp), Hh.
Qed.

Lemma GetQuery_not_None `{Platform} (r : Request) key : GetQuery r key ≠ None.
Proof. by rewrite GetQuery_spec. Qed.

(** The signature block hands the request on exactly when it accepts it. *)
Lemma Listen_accepts_or_refuses `{Platform} c now r w :
  (signatureAccepted c now r ∧ Listen c now r w = listenVerified c r w) ∨
  (¬ signatureAccepted c now r ∧
   ∃ message, Listen c now r w = acked (AckFailure [message] w)).
Proof.
  destruct (decide (token c = "")) as [Ht|Ht].
  { left. split; [by left | by apply Listen_no_token]. }
  unfold Listen. destruct (String.eqb_spec (token c) "") as [|_]; [done|].
  cbn [negb].
  destruct (GetQuery r querySign) as [[sign ok]|] eqn:Hs;
    [|by apply GetQuery_not_None in Hs].
  cbn. destruct ok; cbn.
  2: { right. split; [|eauto]. intros [?|(? & ? & ? & ? & _)]; congruence. }
  destruct (GetQuery r querySignRequestTime) as [[requestTime ok]|] eqn:Hrt;
    [|by apply GetQuery_not_None in Hrt].
  cbn. destruct ok; cbn.
  2: { right. split; [|eauto]. intros [?|(? & ? & ? & _ & ? & _)]; congruence. }
  destruct (strconv.ParseInt requestTime) as [requestTimeInt|e] eqn:Hp.
  2: { right. split; [|eauto].
       intros [?|(? & ? & ? & _ & ? & ? & _)]; congruence. }
  destruct (signCheck sign requestTimeInt (token c) now) as [err|] eqn:Hc.
  - right. split; [|eauto].
    intros [?|(? & ? & ? & ? & ? & ? & ?)]; [done|]. congruence.
  - left. split; [|done]. right. by exists sign, requestTime, requestTimeInt.
Qed.

(** Every request either gets a handler called or is answered by [Listen]
    itself with one envelope. *)
Lemma Listen_dispatches_or_answers `{Platform} c now r w :
  (∃ fn data, dispatches c now r fn data) ∨
  ((∀ fn data, ¬ dispatches c now r fn data) ∧
   ∃ resp, Listen c now r w = acked (Ack (VBaseResp resp) w)).
Proof.
  destruct (Listen_accepts_or_refuses c now r w)
    as [[Hacc ->]|[Hno (message & ->)]].
  2: { right. split; [by intros fn data [? _]|].
       rewrite AckFailure_spec. eauto. }
  unfold listenVerified.
  destruct (GetQuery r queryAppId) as [[appId' ok]|] eqn:Ha;
    [|by apply GetQuery_not_None in Ha].
  cbn. destruct ok; cbn.
  2: { right. split; [intros fn data (_ & ? & _); congruence|].
       rewrite AckFailure_spec. eauto. }
  destruct (String.eqb_spec appId' (strconv.Itoa (appId c))) as [->|Hne]; cbn.
  2: { right. split; [intros fn data (_ & ? & _); congruence|].
       rewrite AckFailure_spec. eauto. }
  destruct (GetQuery r queryCommand) as [[command ok]|] eqn:Hc;
    [|by apply GetQuery_not_None in Hc].
  cbn. destruct ok; cbn.
  2: { right. split; [intros fn data (_ & _ & ? & ? & ? & ? & _); congruence|].
       rewrite AckFailure_spec. eauto. }
  destruct (ReadAll r) as [body [err|]] eqn:Hb.
  { right. split; [intros fn data (_ & _ & ? & ? & ? & _ & ? & _); congruence|].
    rewrite AckFailure_spec. eauto. }
  destruct (parseCommand command body) as [[event data] [err|]] eqn:Hp.
  { right. split; [|rewrite AckFailure_spec; eauto].
    intros fn data' (_ & _ & ? & ? & ? & Hc' & Hb' & Hp' & _).
    rewrite Hc in Hc'. injection Hc' as <-. rewrite Hb in Hb'. injection Hb' as <-.
    congruence. }
  destruct (handlers c !! event) as [fn|] eqn:Hh.
  - left. exists fn, data. split; [done|]. split; [done|].
    by exists command, body, event.
  - right. split; [|rewrite AckSuccess_spec; eauto].
    intros fn data' (_ & _ & ? & ? & ? & Hc' & Hb' & Hp' & Hh').
    rewrite Hc in Hc'. injection Hc' as <-. rewrite Hb in Hb'. injection Hb' as <-.
    rewrite Hp in Hp'. injection Hp' as <- <-. congruence.
Qed.

(** C4 (as amended). [Listen] calls at most one handler and answers every
    request it does not hand to a handler. When the request passes the
    signature block and the app-id check, names a command and has a body
    that is read and decoded, and a handler is registered for the
    command's event, [Listen] calls that handler, once, with what the body
    decoded to, and writes nothing itself: it returns if and only if the
    handler does (a nil handler does not), and the response then holds
    exactly the acknowledgements the handler made, be they none, one or
    several. For every other request [Listen] returns, calls no handler and
    itself appends exactly one acknowledgement, an envelope written with
    status 200. *)
Theorem Listen_acknowledges `{Platform} c now r w :
  (∀ fn data,
      dispatches c now r fn data →
      Listen c now r w = dispatch fn data w ∧
      (ackCalls fn data = None → Listen c now r w = None) ∧
      (∀ calls,
          ackCalls fn data = Some calls →
          Listen c now r w
          = Some (mkOutcome (fold_left runAckCall calls w) [(fn, data)]) ∧
          bodiesWritten (fold_left runAckCall calls w)
          = (bodiesWritten w + length calls)%nat)) ∧
  ((∀ fn data, ¬ dispatches c now r fn data) →
   ∃ resp,
     Listen c now r w
     = Some (mkOutcome
               (w ++ [WriteHeader 200; Write (json_Marshal (VBaseResp resp))])%list
               []) ∧
     bodiesWritten
       (w ++ [WriteHeader 200; Write (json_Marshal (VBaseResp resp))])%list
     = S (bodiesWritten w)) ∧
  ((∃ fn data, dispatches c now r fn data) ∨
   (∀ fn data, ¬ dispatches c now r fn data)).
Proof.
  split; [|split].
  - intros fn data Hd. rewrite (dispatches_Listen _ _ _ _ _ _ Hd).
    unfold dispatch. rewrite call_ackCalls. split; [done|]. split.
    + by intros ->.
    + intros calls ->. split; [done|]. apply bodiesWritten_calls.
  - intros Hno.
    destruct (Listen_dispatches_or_answers c now r w)
      as [(fn & data & Hd)|[_ (resp & ->)]]; [by apply Hno in Hd|].
    exists resp. rewrite <- Ack_spec. split; [done|]. apply bodiesWritten_Ack.
  - destruct (Listen_dispatches_or_answers c now r w)
      as [?|[? _]]; [by left | by right].
Qed.

Lemma Listen_acknowledges_witness :
  let body := "{'GroupId':'@TGS#1'}" in
  let h := handlerOf [CallAckSuccess 0 []] in
  let c := Register EventAfterGroupCreate h (NewCallback 140000000 []) in
  let r :=
    sampleRequest
      [("SdkAppid", "140000000"); ("CallbackCommand", "Group.CallbackAfterCreateGroup")]
      body in
  Listen c 0 r []
  = Some (mkOutcome
            [WriteHeader 200;
             Write (bytes_of_string "{'ActionStatus':'OK','ErrorCode':0,'ErrorInfo':''}")]
            [(h, Some body)])
  ∧ Listen (Register EventAfterGroupCreate nilFunc c) 0 r [] = None.
Proof.
  cbv zeta. split.
  - refine (proj1 (proj2 (proj2
              (proj1 (Listen_acknowledges (H := samplePlatform) _ 0 _ [])
                 (handlerOf [CallAckSuccess 0 []]) (Some "{'GroupId':'@TGS#1'}") _))
              [CallAckSuccess 0 []] _)); [|done].
    split; [by left|]. split; [by vm_compute|].
    exists "Group.CallbackAfterCreateGroup", (bytes_of_string "{'GroupId':'@TGS#1'}"),
      EventAfterGroupCreate.
    repeat split; by vm_compute.
  - refine (proj1 (proj2
              (proj1 (Listen_acknowledges (H := samplePlatform) _ 0 _ [])
                 nilFunc (Some "{'GroupId':'@TGS#1'}") _)) _); [|done].
    split; [by left|]. split; [by vm_compute|].
    exists "Group.CallbackAfterCreateGroup", (bytes_of_string "{'GroupId':'@TGS#1'}"),
      EventAfterGroupCreate.
    repeat split; by vm_compute.
Defined.

(** C4 (as stated) fails: with a handler registered, the number of
    acknowledgements is the handler's business. A handler that never uses
    its Ack handle leaves the request without any response body, and one
    that uses it twice leaves two. *)
Lemma Listen_handler_decides_acks :
  let request :=
    sampleRequest
      [("SdkAppid", "140000000"); ("CallbackCommand", "Group.CallbackAfterCreateGroup")]
      "{'GroupId':'@TGS#1'}" in
  let silent : EventHandlerFunc := handlerOf [] in
  let twice : EventHandlerFunc :=
    handlerOf [CallAckSuccess 0 []; CallAckFailure ["again"]] in
  (bodiesWritten ∘ written) <$>
    Listen (Register EventAfterGroupCreate silent (NewCallback 140000000 [])) 0 request []
  = Some 0%nat
  ∧ (bodiesWritten ∘ written) <$>
      Listen (Register EventAfterGroupCreate twice (NewCallback 140000000 [])) 0 request []
    = Some 2%nat.
Proof. split; vm_compute; reflexivity. Qed.

(** C5. A request whose CallbackCommand parameter is present but is not a
    command of the registry gets a failure envelope (ActionStatus FAIL,
    ErrorCode 1) written with status 200, and no handler is called. *)
Theorem Listen_unknown_command `{Platform} c now r w command :
  GetQuery r queryCommand = Some (command, true) →
  command ∉ commandTable.*1 →
  ∃ info,
    Listen c now r w
    = Some (mkOutcome
              (w ++ [WriteHeader 200;
                     Write (json_Marshal (VBaseResp (mkBaseResp "FAIL" 1 info)))])%list
              []).
Proof.
  intros Hc Hout.
  destruct (Listen_sign_block c now r w) as [->|(message & _ & ->)].
  - destruct (listenVerified_unknown c r w command Hc Hout) as [message ->].
    exists message. unfold acked. by rewrite AckFailure_spec, Ack_spec.
  - exists message. unfold acked. by rewrite AckFailure_spec, Ack_spec.
Qed.

Lemma Listen_unknown_command_witness :
  let shout : EventHandlerFunc := handlerOf [CallAckSuccess 7 ["handled"]] in
  ∃ info,
    Listen (Register 0 shout (Register EventAfterGroupCreate shout (NewCallback 140000000 [])))
      0
      (sampleRequest
         [("SdkAppid", "140000000"); ("CallbackCommand", "Group.CallbackAfterCreateGroups")]
         "{}")
      []
    = Some (mkOutcome
              [WriteHeader 200;
               Write (json_Marshal (VBaseResp (mkBaseResp "FAIL" 1 info)))]
              []).
Proof.
  cbv zeta.
  refine (Listen_unknown_command (H := samplePlatform) _ 0 _ []
            "Group.CallbackAfterCreateGroups" _ _).
  - vm_compute. reflexivity.
  - apply (bool_decide_unpack _). vm_compute. exact I.
Defined.

(** C6. A request that passes the signature block, the app-id check, the
    command lookup and the decoding, for an event without a registered
    handler, is answered by [Listen] itself with status 200 and the
    envelope (ActionStatus OK, ErrorCode 0, ErrorInfo empty); no handler is
    called. *)
Theorem Listen_unhandled_event `{Platform} c now r w command body event data :
  signatureAccepted c now r →
  GetQuery r queryAppId = Some (strconv.Itoa (appId c), true) →
  GetQuery r queryCommand = Some (command, true) →
  ReadAll r = (body, None) →
  parseCommand command body = (event, data, None) →
  handlers c !! event = None →
  Listen c now r w
  = Some (mkOutcome
            (w ++ [WriteHeader 200;
                   Write (json_Marshal (VBaseResp (mkBaseResp "OK" 0 "")))])%list
            []).
Proof.
  intros Hs Ha Hc Hb Hp Hh.
  rewrite (Listen_signatureAccepted _ _ _ _ Hs).
  rewrite (listenVerified_dispatch _ _ _ _ _ _ _ Ha Hc Hb Hp), Hh.
  unfold acked. by rewrite AckSuccess_spec, Ack_spec.
Qed.

Lemma Listen_unhandled_event_witness :
  let now := 1700000000 in
  let body := "{'GroupId':'@TGS#1'}" in
  Listen (NewCallback 140000000 ["T"]) now
    (sampleRequest
       [("SdkAppid", "140000000");
        ("CallbackCommand", "Group.CallbackAfterCreateGroup");
        ("RequestTime", "1700000030");
        ("Sign", expectedSign "T" 1700000030)]
       body)
    []
  = Some (mkOutcome
            [WriteHeader 200;
             Write (bytes_of_string "{'ActionStatus':'OK','ErrorCode':0,'ErrorInfo':''}")]
            []).
Proof.
  cbv zeta.
  refine (Listen_unhandled_event (H := samplePlatform) (NewCallback 140000000 ["T"])
            1700000000 _ [] "Group.CallbackAfterCreateGroup"
            (bytes_of_string "{'GroupId':'@TGS#1'}") EventAfterGroupCreate
            (Some "{'GroupId':'@TGS#1'}") _ _ _ _ _ _).
  - right. exists (expectedSign "T" 1700000030), "1700000030", 1700000030.
    repeat split; vm_compute; reflexivity.
  - vm_compute. reflexivity.
  - vm_compute. reflexivity.
  - reflexivity.
  - vm_compute. reflexivity.
  - vm_compute. reflexivity.
Defined.

Lemma valuesOf_withoutSignature key pairs :
  key ≠ querySign → key ≠ querySignRequestTime →
  valuesOf key (withoutSignature pairs) = valuesOf key pairs.
Proof.
  intros Hs Ht. unfold valuesOf, withoutSignature.
  induction pairs as [|[k v] rest IH]; [done|].
  rewrite !filter_cons. cbn [fst].
  destruct (decide (k = key)) as [->|Hne].
  - rewrite decide_True by done. rewrite filter_cons. cbn [fst].
    rewrite decide_True by done. rewrite !fmap_cons. by rewrite IH.
  - case_decide; [|done]. rewrite filter_cons. cbn [fst].
    by rewrite decide_False by done.
Qed.

Lemma GetQuery_withoutSignature `{Platform} (r1 r2 : Request) key :
  key ≠ querySign → key ≠ querySignRequestTime →
  withoutSignature (RawQuery r1) = withoutSignature (RawQuery r2) →
  GetQuery r1 key = GetQuery r2 key.
Proof.
  intros Hs Ht Heq. rewrite !GetQuery_spec.
  rewrite <- (valuesOf_withoutSignature key (RawQuery r1)) by done.
  rewrite <- (valuesOf_withoutSignature key (RawQuery r2)) by done.
  by rewrite Heq.
Qed.

(** C7. With no secret configured, [Listen] goes straight to the app-id
    and command checks, and two requests that differ only in their Sign and
    RequestTime parameters (present, repeated or absent), handled at any two
    clock readings, have the same outcome. *)
Theorem Listen_without_token_ignores_signature `{Platform} c now1 now2 r1 r2 w :
  token c = "" →
  withoutSignature (RawQuery r1) = withoutSignature (RawQuery r2) →
  ReadAll r1 = ReadAll r2 →
  Listen c now1 r1 w = listenVerified c r1 w ∧
  Listen c now1 r1 w = Listen c now2 r2 w.
Proof.
  intros Ht Hq Hb. rewrite !Listen_no_token by done. split; [done|].
  apply listenVerified_ext; [| |done];
    by apply GetQuery_withoutSignature.
Qed.

Lemma Listen_without_token_ignores_signature_witness :
  let c := NewCallback 140000000 [] in
  let body := "{'GroupId':'@TGS#1'}" in
  let bare :=
    sampleRequest
      [("SdkAppid", "140000000"); ("CallbackCommand", "Group.CallbackAfterCreateGroup")]
      body in
  let signed :=
    sampleRequest
      [("Sign", "00ff"); ("SdkAppid", "140000000"); ("RequestTime", "yesterday");
       ("CallbackCommand", "Group.CallbackAfterCreateGroup"); ("Sign", "")]
      body in
  Listen c 1700000000 bare [] = listenVerified c bare [] ∧
  Listen c 1700000000 bare [] = Listen c 5 signed [].
Proof.
  cbv zeta.
  apply (Listen_without_token_ignores_signature (H := samplePlatform));
    vm_compute; reflexivity.
Defined.

(** C8. [Register] returns no error and overwrites: after
    [Register(E, H1)] and [Register(E, H2)] the table holds [H2] for [E],
    exactly as if [H1] had never been registered, and leaves the other
    events alone; a request that passes the checks and resolves to [E] is
    then handed to [H2], once, and to no other handler: the outcome of
    [Listen] is that of the one call of [H2], and when that call returns
    the handler calls made are exactly that one. *)
Theorem Register_last_write_wins `{Platform} c event h1 h2 :
  let c' := Register event h2 (Register event h1 c) in
  handlers c' !! event = Some h2 ∧
  c' = Register event h2 c ∧
  (∀ event', event' ≠ event → handlers c' !! event' = handlers c !! event') ∧
  (∀ now r w command body data,
      signatureAccepted c' now r →
      GetQuery r queryAppId = Some (strconv.Itoa (appId c'), true) →
      GetQuery r queryCommand = Some (command, true) →
      ReadAll r = (body, None) →
      parseCommand command body = (event, data, None) →
      Listen c' now r w = dispatch h2 data w ∧
      ∀ w',
        call h2 data w = Some w' →
        Listen c' now r w = Some (mkOutcome w' [(h2, data)])).
Proof.
  cbv zeta. split; [|split; [|split]].
  - cbn. apply lookup_insert_eq.
  - unfold Register. cbn. by rewrite insert_insert_eq.
  - intros event' Hne. cbn. by rewrite !lookup_insert_ne.
  - intros now r w command body data Hs Ha Hc Hb Hp.
    rewrite (Listen_signatureAccepted _ _ _ _ Hs).
    rewrite (listenVerified_dispatch _ _ _ _ _ _ _ Ha Hc Hb Hp).
    cbn [handlers Register]. rewrite lookup_insert_eq. split; [done|].
    intros w' Hw. unfold dispatch. by rewrite Hw.
Qed.

Lemma Register_last_write_wins_witness :
  let h1 : EventHandlerFunc := handlerOf [CallAckFailure ["first"]] in
  let h2 : EventHandlerFunc := handlerOf [CallAckSuccess 0 []] in
  let c' :=
    Register EventAfterGroupCreate h2
      (Register EventAfterGroupCreate h1 (NewCallback 140000000 [])) in
  let body := "{'GroupId':'@TGS#1'}" in
  Listen c' 0
    (sampleRequest
       [("SdkAppid", "140000000"); ("CallbackCommand", "Group.CallbackAfterCreateGroup")]
       body)
    []
  = Some (mkOutcome
            [WriteHeader 200;
             Write (bytes_of_string "{'ActionStatus':'OK','ErrorCode':0,'ErrorInfo':''}")]
            [(h2, Some body)]).
Proof.
  cbv zeta.
  refine (proj2 (proj2 (proj2 (proj2
            (Register_last_write_wins (H := samplePlatform)
               (NewCallback 140000000 []) EventAfterGroupCreate _ _)))
            0 _ [] "Group.CallbackAfterCreateGroup"
            (bytes_of_string "{'GroupId':'@TGS#1'}")
            (Some "{'GroupId':'@TGS#1'}") _ _ _ _ _) _ _).
  - by left.
  - vm_compute. reflexivity.
  - vm_compute. reflexivity.
  - reflexivity.
  - vm_compute. reflexivity.
  - vm_compute. reflexivity.
Defined.

(** ** Empty signatures and empty secrets *)

Lemma Sum_length data : length (sha256.Sum data) = 32%nat.
Proof. unfold sha256.Sum. cbv zeta. rewrite length_map. reflexivity. Qed.

Lemma EncodeToString_length src :
  String.length (hex.EncodeToString src) = (2 * length src)%nat.
Proof. induction src as [|b src IH]; cbn; [done|]. rewrite IH. lia. Qed.

Lemma expectedSign_length token requestTime :
  String.length (expectedSign token requestTime) = 64%nat.
Proof. unfold expectedSign. by rewrite EncodeToString_length, Sum_length. Qed.

Lemma expectedSign_nonempty token requestTime : "" ≠ expectedSign token requestTime.
Proof.
  intros Heq. pose proof (expectedSign_length token requestTime) as Hl.
  rewrite <- Heq in Hl. done.
Qed.

Lemma signCheck_empty_sign `{Platform} requestTime token now :
  signCheck "" requestTime token now
  = Some (errors_New (if 60 <=? abs (sub64 now requestTime)
                      then "request time expired" else "invalid signature")).
Proof.
  unfold signCheck. destruct (60 <=? abs (sub64 now requestTime)); [done|].
  fold (expectedSign token requestTime).
  destruct (String.eqb_spec "" (expectedSign token requestTime)) as [Heq|Hne]; [|done].
  by apply expectedSign_nonempty in Heq.
Qed.

(** C9. [GetQuery] returns the first value of a parameter that occurs
    (however often) and reports it present, also when that value is empty;
    only a parameter that does not occur is reported missing. So with a
    secret configured, a request whose first Sign value is empty is never
    refused as "invalid sign": it goes on to the RequestTime checks and,
    with a RequestTime inside the window, is refused by the digest
    comparison as "invalid signature". *)
Theorem GetQuery_first_value `{Platform} :
  (∀ (r : Request) key v0 rest,
      valuesOf key (RawQuery r) = v0 :: rest → GetQuery r key = Some (v0, true)) ∧
  (∀ (r : Request) key,
      valuesOf key (RawQuery r) = [] → GetQuery r key = Some ("", false)) ∧
  (∀ c now r w rest,
      token c ≠ "" →
      valuesOf querySign (RawQuery r) = "" :: rest →
      ∃ message,
        Listen c now r w = acked (AckFailure [message] w) ∧
        message ≠ "invalid sign" ∧
        ∀ requestTime requestTimeInt,
          GetQuery r querySignRequestTime = Some (requestTime, true) →
          strconv.ParseInt requestTime = inl requestTimeInt →
          abs (sub64 now requestTimeInt) < 60 →
          message = "invalid signature").
Proof.
  split; [|split].
  - intros r key v0 rest Hv. by rewrite GetQuery_spec, Hv.
  - intros r key Hv. by rewrite GetQuery_spec, Hv.
  - intros c now r w rest Ht Hv. unfold Listen.
    rewrite (GetQuery_spec r querySign), Hv.
    destruct (String.eqb_spec (token c) "") as [|_]; [done|].
    destruct (GetQuery r querySignRequestTime) as [[requestTime ok]|] eqn:Hrt.
    2: { by rewrite GetQuery_spec in Hrt. }
    cbn. destruct ok; cbn.
    2: { eexists. split; [done|]. split; [done|]. intros ? ? [=]. }
    destruct (strconv.ParseInt requestTime) as [requestTimeInt|e] eqn:Hp.
    2: { eexists. split; [done|]. split; [done|]. intros ? ? [= <-]. congruence. }
    rewrite signCheck_empty_sign. cbn [Error].
    eexists. split; [done|]. split.
    + by destruct (60 <=? abs (sub64 now requestTimeInt)).
    + intros ? ? [= <-] Hp' Hfresh. rewrite Hp in Hp'. injection Hp' as <-.
      destruct (Z.leb_spec 60 (abs (sub64 now requestTimeInt))); [lia | done].
Qed.

Lemma GetQuery_first_value_witness :
  let r :=
    sampleRequest
      [("Sign", ""); ("RequestTime", "1700000030"); ("Sign", expectedSign "T" 1700000030);
       ("SdkAppid", "140000000"); ("CallbackCommand", "Group.CallbackAfterCreateGroup")]
      "{}" in
  GetQuery r "Sign" = Some ("", true) ∧
  GetQuery r "ClientIP" = Some ("", false) ∧
  ∃ message,
    Listen (NewCallback 140000000 ["T"]) 1700000000 r []
    = acked (AckFailure [message] []) ∧ message = "invalid signature".
Proof.
  cbv zeta.
  destruct (GetQuery_first_value (H := samplePlatform)) as (Hfirst & Hnone & Hempty).
  split; [|split].
  - eapply Hfirst. vm_compute. reflexivity.
  - apply Hnone. vm_compute. reflexivity.
  - edestruct Hempty as (message & Hl & _ & Hmsg);
      [| | exists message; split; [exact Hl|]].
    + vm_compute. congruence.
    + vm_compute. reflexivity.
    + apply (Hmsg "1700000030" 1700000030); vm_compute; congruence.
Defined.

(** With a secret configured the signature block is not skipped: a request
    it does not accept is refused there. *)
Lemma Listen_with_token `{Platform} c now r w :
  token c ≠ "" →
  ¬ signatureAccepted c now r →
  ∃ message, Listen c now r w = acked (AckFailure [message] w).
Proof.
  intros Ht Hno. unfold Listen.
  destruct (String.eqb_spec (token c) "") as [|_]; [done|].
  destruct (GetQuery r querySign) as [[sign ok]|] eqn:Hs.
  2: { by rewrite GetQuery_spec in Hs. }
  cbn. destruct ok; cbn; [|eauto].
  destruct (GetQuery r querySignRequestTime) as [[requestTime ok]|] eqn:Hrt.
  2: { by rewrite GetQuery_spec in Hrt. }
  cbn. destruct ok; cbn; [|eauto].
  destruct (strconv.ParseInt requestTime) as [requestTimeInt|e] eqn:Hp; [|eauto].
  destruct (signCheck sign requestTimeInt (token c) now) as [err|] eqn:Hc; [eauto|].
  exfalso. apply Hno. right. by exists sign, requestTime, requestTimeInt.
Qed.

(** C10. [NewCallback] stores the first of the token arguments and ignores
    the others; without any it stores the empty string. [Listen] skips the
    signature block when the stored token is empty, and only then: with a
    non-empty token a request the block does not accept is refused, for
    one a request without Sign as "invalid sign". A callback built with the
    empty string as secret is therefore the same callback as one built with
    no secret, and [Listen] treats every request alike on both. *)
Theorem NewCallback_token `{Platform} :
  (∀ appId t0 rest,
      NewCallback appId (t0 :: rest) = mkCallback appId t0 ∅) ∧
  (∀ appId, NewCallback appId [] = mkCallback appId "" ∅) ∧
  (∀ c now r w, token c = "" → Listen c now r w = listenVerified c r w) ∧
  (∀ c now r w,
      token c ≠ "" →
      (¬ signatureAccepted c now r →
       ∃ message, Listen c now r w = acked (AckFailure [message] w)) ∧
      (valuesOf querySign (RawQuery r) = [] →
       Listen c now r w = acked (AckFailure ["invalid sign"] w))) ∧
  (∀ appId rest now r w,
      NewCallback appId ("" :: rest) = NewCallback appId [] ∧
      Listen (NewCallback appId ("" :: rest)) now r w
      = Listen (NewCallback appId []) now r w ∧
      Listen (NewCallback appId ("" :: rest)) now r w
      = listenVerified (NewCallback appId []) r w).
Proof.
  split; [done|]. split; [done|]. split; [intros; by apply Listen_no_token|].
  split.
  - intros c now r w Ht. split; [by apply Listen_with_token|].
    intros Hv. unfold Listen. rewrite (GetQuery_spec r querySign), Hv.
    by destruct (String.eqb_spec (token c) "") as [|_].
  - intros appId rest now r w. split; [done|]. split; [done|].
    by apply Listen_no_token.
Qed.

Lemma NewCallback_token_witness :
  let r :=
    sampleRequest
      [("SdkAppid", "140000000"); ("CallbackCommand", "Group.CallbackAfterCreateGroup")]
      "{}" in
  token (NewCallback 140000000 ["T"; "U"]) = "T" ∧
  Listen (NewCallback 140000000 ["T"; "U"]) 0 r []
  = acked (AckFailure ["invalid sign"] []) ∧
  Listen (NewCallback 140000000 [""; "U"]) 0 r []
  = Listen (NewCallback 140000000 []) 0 r [].
Proof.
  cbv zeta.
  destruct (NewCallback_token (H := samplePlatform))
    as (Hfirst & _ & _ & Htoken & Hempty).
  split; [|split].
  - by rewrite Hfirst.
  - apply Htoken; vm_compute; [congruence | reflexivity].
  - apply Hempty.
Defined.

(** ** The two scenarios of the specification, and the overflow at work *)

Example Listen_scenario_handled :
  let body := "{'GroupId':'@TGS#1'}" in
  let h : EventHandlerFunc := handlerOf [CallAckSuccess 0 []] in
  Listen (Register EventAfterGroupCreate h (NewCallback 140000000 [])) 0
    (sampleRequest
       [("SdkAppid", "140000000"); ("CallbackCommand", "Group.CallbackAfterCreateGroup")]
       body)
    []
  = Some (mkOutcome
            [WriteHeader 200;
             Write (bytes_of_string "{'ActionStatus':'OK','ErrorCode':0,'ErrorInfo':''}")]
            [(h, Some body)]).
Proof. vm_compute. reflexivity. Qed.

Example Listen_scenario_wrong_appId :
  let h : EventHandlerFunc := handlerOf [CallAckSuccess 0 []] in
  Listen (Register EventAfterGroupCreate h (NewCallback 140000000 [])) 0
    (sampleRequest
       [("SdkAppid", "999"); ("CallbackCommand", "Group.CallbackAfterCreateGroup")]
       "{'GroupId':'@TGS#1'}")
    []
  = Some (mkOutcome
            [WriteHeader 200;
             Write (bytes_of_string
                      "{'ActionStatus':'FAIL','ErrorCode':1,'ErrorInfo':'invalid sdk appId'}")]
            []).
Proof. vm_compute. reflexivity. Qed.

(** A request dated 2^63 seconds before the clock, signed for that date,
    goes through the whole of [Listen], while the same request dated 61
    seconds back is refused. *)
Example Listen_accepts_overflowing_distance :
  let c := NewCallback (P := samplePlatform) 140000000 ["T"] in
  let request requestTime :=
    sampleRequest
      [("Sign", expectedSign "T" requestTime);
       ("RequestTime", strconv.FormatInt requestTime);
       ("SdkAppid", "140000000");
       ("CallbackCommand", "Group.CallbackAfterCreateGroup")]
      "{}" in
  Listen c 1700000000 (request (-9223372035154775808)) []
  = acked (AckSuccess 0 [] [])
  ∧ Listen c 1700000000 (request (1700000000 - 61)) []
    = acked (AckFailure ["request time expired"] []).
Proof. split; vm_compute; reflexivity. Qed.

(** * Further properties of the callback package *)

(** ** Decimal round trip of the request time *)

Lemma parseDigits_digit d rest n :
  0 ≤ d ≤ 9 → 0 ≤ n → n * 10 + d ≤ strconv.maxUint64 →
  strconv.parseDigits (String (strconv.digit_char d) rest) n
  = strconv.parseDigits rest (n * 10 + d).
Proof.
  unfold strconv.maxUint64. intros Hd Hn Hmax.
  cbn [strconv.parseDigits]. unfold strconv.digit_char.
  rewrite nat_ascii_embedding by lia.
  replace (Z.of_nat (48 + Z.to_nat d) - 48) with d by lia.
  destruct (Z.ltb_spec d 0); [lia|]. destruct (Z.ltb_spec 9 d); [lia|].
  cbn [orb]. unfold strconv.maxUint64.
  destruct (Z.leb_spec ((2 ^ 64 - 1) / 10 + 1) n) as [Hc|_].
  { exfalso. revert Hc. Z.div_mod_to_equations. lia. }
  destruct (Z.ltb_spec (2 ^ 64 - 1) (n * 10 + d)); [lia | done].
Qed.

Lemma parseDigits_formatBits fuel :
  ∀ u acc,
    0 ≤ u < 2 ^ Z.of_nat fuel → u ≤ strconv.maxUint64 →
    strconv.parseDigits (strconv.formatBits fuel u acc) 0
    = strconv.parseDigits acc u.
Proof.
  induction fuel as [|fuel IH]; intros u acc Hu Hmax.
  - cbn in *. by replace u with 0 by lia.
  - cbn [strconv.formatBits]. rewrite Nat2Z.inj_succ, Z.pow_succ_r in Hu by lia.
    assert (0 ≤ u mod 10 ≤ 9) by (Z.div_mod_to_equations; lia).
    destruct (Z.ltb_spec u 10) as [Hsmall|Hbig].
    + rewrite parseDigits_digit by (unfold strconv.maxUint64 in *; lia).
      f_equal. Z.div_mod_to_equations. lia.
    + rewrite IH.
      * rewrite parseDigits_digit.
        -- f_equal. Z.div_mod_to_equations. lia.
        -- done.
        -- Z.div_mod_to_equations. lia.
        -- Z.div_mod_to_equations. lia.
      * Z.div_mod_to_equations. lia.
      * Z.div_mod_to_equations. lia.
Qed.

Lemma formatBits_nonempty fuel :
  ∀ u acc, acc ≠ "" ∨ fuel ≠ 0%nat → strconv.formatBits fuel u acc ≠ "".
Proof.
  induction fuel as [|fuel IH]; intros u acc Hne; cbn [strconv.formatBits].
  - by destruct Hne.
  - destruct (u <? 10); [done|]. apply IH. by left.
Qed.

Lemma log2_fuel u : 0 ≤ u → u < 2 ^ Z.of_nat (S (Z.to_nat (Z.log2 u))).
Proof.
  intros Hu. rewrite Nat2Z.inj_succ, Z2Nat.id by apply Z.log2_nonneg.
  destruct (Z.eq_dec u 0) as [->|Hne]; [done|].
  apply Z.log2_spec. lia.
Qed.

Lemma ParseUint_formatBits u :
  0 ≤ u ≤ strconv.maxUint64 →
  strconv.ParseUint (strconv.formatBits (S (Z.to_nat (Z.log2 u))) u "") = inl u.
Proof.
  intros Hu. unfold strconv.ParseUint.
  assert (strconv.formatBits (S (Z.to_nat (Z.log2 u))) u "" ≠ "") as Hne
    by (apply formatBits_nonempty; by right).
  pose proof (parseDigits_formatBits (S (Z.to_nat (Z.log2 u))) u ""
                (conj (proj1 Hu) (log2_fuel u (proj1 Hu))) (proj2 Hu)) as Hp.
  destruct (strconv.formatBits (S (Z.to_nat (Z.log2 u))) u ""); [done|].
  exact Hp.
Qed.

(** [strconv.ParseInt] reads back what [strconv.FormatInt] prints. *)
Lemma ParseInt_FormatInt i :
  int64.in_range i → strconv.ParseInt (strconv.FormatInt i) = inl i.
Proof.
  unfold int64.in_range, int64.min, int64.max. intros Hi.
  unfold strconv.FormatInt. destruct (Z.ltb_spec i 0) as [Hneg|Hpos].
  - cbn [strconv.ParseInt]. cbn [Ascii.eqb Bool.eqb orb].
    rewrite ParseUint_formatBits by (unfold strconv.maxUint64; lia).
    cbn [negb andb]. destruct (Z.ltb_spec (2 ^ 63) (- i)); [lia|].
    f_equal. lia.
  - pose proof (ParseUint_formatBits i) as Hp.
    destruct (strconv.formatBits (S (Z.to_nat (Z.log2 i))) i "") as [|c rest] eqn:Hs.
    { by apply formatBits_nonempty in Hs; [|right]. }
    specialize (Hp ltac:(unfold strconv.maxUint64; lia)).
    unfold strconv.ParseInt.
    destruct (Ascii.eqb_spec c "+") as [->|_]; [by cbn in Hp|].
    destruct (Ascii.eqb_spec c "-") as [->|_]; [by cbn in Hp|].
    cbn [orb]. rewrite Hp. cbn [negb andb].
    by destruct (Z.leb_spec (2 ^ 63) i); [lia|].
Qed.

(** ** The time window on [int64] *)

(** X1. On [int64] arguments [abs] returns the absolute value, a number
    that is not negative, for every argument but the least one, which it
    returns unchanged, negative. *)
Theorem abs_int64 x :
  int64.in_range x →
  int64.in_range (abs x) ∧
  (x ≠ int64.min → abs x = Z.abs x ∧ 0 ≤ abs x) ∧
  (x = int64.min → abs x = x ∧ abs x < 0).
Proof.
  unfold int64.in_range, int64.min, int64.max. intros Hx.
  destruct (Z.eq_dec x (- 2 ^ 63)) as [->|Hne].
  - split; [by vm_compute|]. split; [done|]. intros _. by vm_compute.
  - rewrite abs_in_range by (unfold int64.min, int64.max; lia).
    split; [lia|]. split; [lia | done].
Qed.

Lemma abs_int64_witness :
  abs (-61) = 61 ∧ abs (- 2 ^ 63) = - 2 ^ 63.
Proof.
  split.
  - apply (abs_int64 (-61)); [by vm_compute | by vm_compute].
  - apply (abs_int64 (- 2 ^ 63)); [by vm_compute | done].
Defined.

(** X2. For a clock reading and a timestamp that are [int64] values,
    [signCheck] answers as follows. It reports "request time expired" when
    the two are 60 seconds or more apart, except when their distance is
    2^63 or more than 2^64 - 60, where the subtraction overflows and the
    test passes; otherwise it reports "invalid signature" unless the
    presented string is the hex SHA-256 digest of the token followed by the
    decimal timestamp, and accepts if it is. *)
Theorem signCheck_verdict `{Platform} sign requestTime token now :
  int64.in_range now → int64.in_range requestTime →
  let inWindow :=
    Z.abs (now - requestTime) < 60 ∨
    Z.abs (now - requestTime) = 2 ^ 63 ∨
    2 ^ 64 - 60 < Z.abs (now - requestTime) in
  (signCheck sign requestTime token now = None
   ↔ inWindow ∧ sign = expectedSign token requestTime) ∧
  (signCheck sign requestTime token now = Some (errors_New "invalid signature")
   ↔ inWindow ∧ sign ≠ expectedSign token requestTime) ∧
  (signCheck sign requestTime token now = Some (errors_New "request time expired")
   ↔ ¬ inWindow).
Proof.
  intros Hn Hr. cbv zeta. rewrite <- (abs_sub64_lt_60 now requestTime Hn Hr).
  unfold signCheck. fold (expectedSign token requestTime).
  destruct (Z.leb_spec 60 (abs (sub64 now requestTime))) as [Hexp|Hok].
  - split; [|split]; (split; [done | lia]) || (split; [lia | done]).
  - destruct (String.eqb_spec sign (expectedSign token requestTime)) as [Heq|Hne];
      cbn [negb].
    + split; [|split]; split; try done; try (by intros [_ ?]); try lia;
        try (intros Hno; by apply Hno in Hok).
    + split; [|split]; split; try done; try (by intros [_ ?]); try lia;
        try (intros Hno; by apply Hno in Hok).
Qed.

Lemma signCheck_verdict_witness :
  signCheck (P := samplePlatform) (expectedSign "T" 1700000030) 1700000030 "T" 1700000000
  = None
  ∧ signCheck (P := samplePlatform) (expectedSign "T" 1700000030) 1700000030 "T" 1700000090
    = Some (errors_New "request time expired").
Proof.
  split.
  - apply (signCheck_verdict (H := samplePlatform)); [by vm_compute..|].
    split; [left; by vm_compute | done].
  - apply (signCheck_verdict (H := samplePlatform)); [by vm_compute..|].
    vm_compute. intros [?|[?|?]]; congruence.
Defined.

(** ** What passes the signature block, and what reaches a handler *)

(** X3. A request whose RequestTime is the decimal form of an [int64]
    timestamp less than 60 seconds from the clock, and whose Sign is the
    digest of the configured token followed by that decimal form, passes
    the signature block: [Listen] goes on to the app-id check. *)
Theorem Listen_signed_request_passes `{Platform} c now r w t0 :
  int64.in_range now → int64.in_range t0 →
  Z.abs (now - t0) < 60 →
  GetQuery r querySign = Some (expectedSign (token c) t0, true) →
  GetQuery r querySignRequestTime = Some (strconv.FormatInt t0, true) →
  signatureAccepted c now r ∧ Listen c now r w = listenVerified c r w.
Proof.
  intros Hn Ht Hw Hs Hrt.
  assert (signatureAccepted c now r) as Hacc.
  { right. exists (expectedSign (token c) t0), (strconv.FormatInt t0), t0.
    split; [done|]. split; [done|]. split; [by apply ParseInt_FormatInt|].
    apply signCheck_int64; [done..|]. split; [done | by left]. }
  split; [done | by apply Listen_signatureAccepted].
Qed.

Lemma Listen_signed_request_passes_witness :
  let r :=
    sampleRequest
      [("RequestTime", "1700000030"); ("Sign", expectedSign "T" 1700000030);
       ("SdkAppid", "140000000"); ("CallbackCommand", "Group.CallbackAfterGroupFull")]
      "{}" in
  Listen (NewCallback 140000000 ["T"]) 1700000000 r []
  = listenVerified (NewCallback 140000000 ["T"]) r [].
Proof.
  cbv zeta.
  apply (Listen_signed_request_passes (H := samplePlatform)
           (NewCallback 140000000 ["T"]) 1700000000 _ [] 1700000030);
    by vm_compute.
Defined.

(** X4. With a secret configured, a request whose RequestTime parses to a
    timestamp 60 seconds or more from the clock (and less than 2^63 away)
    is answered "request time expired", whatever its Sign; one inside the
    window whose Sign is not the expected digest is answered "invalid
    signature". In both cases no handler is called. *)
Theorem Listen_stale_or_forged_refused `{Platform} c now r w sign requestTime t :
  token c ≠ "" →
  GetQuery r querySign = Some (sign, true) →
  GetQuery r querySignRequestTime = Some (requestTime, true) →
  strconv.ParseInt requestTime = inl t →
  - 2 ^ 63 < now - t < 2 ^ 63 →
  (60 ≤ Z.abs (now - t) →
   Listen c now r w = acked (AckFailure ["request time expired"] w)) ∧
  (Z.abs (now - t) < 60 → sign ≠ expectedSign (token c) t →
   Listen c now r w = acked (AckFailure ["invalid signature"] w)).
Proof.
  intros Ht Hs Hrt Hp Hd. unfold Listen.
  destruct (String.eqb_spec (token c) "") as [|_]; [done|]. cbn [negb].
  rewrite Hs. cbn. rewrite Hrt. cbn. rewrite Hp.
  unfold signCheck. rewrite abs_sub64_exact by done.
  fold (expectedSign (token c) t). split.
  - intros Hstale. by destruct (Z.leb_spec 60 (Z.abs (now - t))); [|lia].
  - intros Hfresh Hne. destruct (Z.leb_spec 60 (Z.abs (now - t))); [lia|].
    by destruct (String.eqb_spec sign (expectedSign (token c) t)).
Qed.

Lemma Listen_stale_or_forged_refused_witness :
  let c := NewCallback (P := samplePlatform) 140000000 ["T"] in
  let request requestTime sign :=
    sampleRequest
      [("Sign", sign); ("RequestTime", requestTime); ("SdkAppid", "140000000");
       ("CallbackCommand", "Group.CallbackAfterGroupFull")]
      "{}" in
  Listen c 1700000000 (request "1699999939" (expectedSign "T" 1699999939)) []
  = acked (AckFailure ["request time expired"] [])
  ∧ Listen c 1700000000 (request "1700000001" (expectedSign "T" 1700000000)) []
    = acked (AckFailure ["invalid signature"] []).
Proof.
  cbv zeta. split.
  - apply (Listen_stale_or_forged_refused (H := samplePlatform) _ 1700000000 _ []
             (expectedSign "T" 1699999939) "1699999939" 1699999939);
      by vm_compute.
  - apply (Listen_stale_or_forged_refused (H := samplePlatform) _ 1700000000 _ []
             (expectedSign "T" 1700000000) "1700000001" 1700000001);
      by vm_compute.
Defined.

Lemma parseCommand_no_error `{Platform} command body event data :
  parseCommand command body = (event, data, None) →
  ∃ shape,
    (command, (event, shape)) ∈ commandTable ∧
    json_Unmarshal body shape = inl data.
Proof.
  unfold parseCommand.
  destruct (switch commandTable command) as [[event' shape]|] eqn:Hsw; [|done].
  destruct (json_Unmarshal body shape) as [data'|e] eqn:Hdec; [|done].
  intros [= <- <-]. exists shape. split; [by apply switch_Some | done].
Qed.

(** X5. A handler is called only for a request that was accepted by the
    signature block, whose first SdkAppid value is the decimal form of the
    configured app id, whose first CallbackCommand value is a command of
    the registry, and whose body was read and decoded without error into
    the shape of that command. The handler is the one registered for the
    command's event, and it receives what the body decoded to, nil
    included. A call of [Listen] that does not return is a call of such a
    handler that does not return. *)
Theorem Listen_calls_handler_only_if_verified `{Platform} c now r w :
  (∀ o fn data,
      Listen c now r w = Some o →
      (fn, data) ∈ invoked o →
      signatureAccepted c now r ∧
      GetQuery r queryAppId = Some (strconv.Itoa (appId c), true) ∧
      ∃ command body event shape,
        GetQuery r queryCommand = Some (command, true) ∧
        ReadAll r = (body, None) ∧
        (command, (event, shape)) ∈ commandTable ∧
        json_Unmarshal body shape = inl data ∧
        handlers c !! event = Some fn ∧
        dispatch fn data w = Some o ∧
        invoked o = [(fn, data)]) ∧
  (Listen c now r w = None →
   ∃ fn data, dispatches c now r fn data ∧ call fn data w = None).
Proof.
  destruct (Listen_dispatches_or_answers c now r w)
    as [(fn' & data' & Hd)|[_ (resp & Hl)]].
  2: { rewrite Hl. split; [|done]. intros o fn data [= <-] Hin.
       by apply elem_of_nil in Hin. }
  pose proof (dispatches_Listen c now r w fn' data' Hd) as Hl. rewrite Hl.
  unfold dispatch. split.
  - intros o fn data Ho Hin.
    destruct (call fn' data' w) as [w'|] eqn:Hcall; [|done].
    injection Ho as <-. cbn in Hin. apply list_elem_of_singleton in Hin.
    injection Hin as -> ->.
    destruct Hd as (Hacc & Ha & command & body & event & Hc & Hb & Hp & Hh).
    split; [done|]. split; [done|].
    destruct (parseCommand_no_error _ _ _ _ Hp) as (shape & Hin & Hdec).
    exists command, body, event, shape. by rewrite Hcall.
  - intros Hnone. exists fn', data'. split; [done|].
    by destruct (call fn' data' w).
Qed.

Lemma Listen_calls_handler_only_if_verified_witness :
  let h : EventHandlerFunc := handlerOf [CallAckSuccess 0 []] in
  let c := Register EventAfterGroupCreate h (NewCallback 140000000 []) in
  let r :=
    sampleRequest
      [("SdkAppid", "140000000"); ("CallbackCommand", "Group.CallbackAfterCreateGroup")]
      "null" in
  let o := mkOutcome (fold_left runAckCall [CallAckSuccess 0 []] []) [(h, None)] in
  signatureAccepted c 0 r ∧
  GetQuery r queryAppId = Some (strconv.Itoa (appId c), true) ∧
  ∃ command body event shape,
    GetQuery r queryCommand = Some (command, true) ∧
    ReadAll r = (body, None) ∧
    (command, (event, shape)) ∈ commandTable ∧
    json_Unmarshal body shape = inl None ∧
    handlers c !! event = Some h ∧
    dispatch h None [] = Some o ∧
    invoked o = [(h, None)].
Proof.
  cbv zeta.
  apply (proj1 (Listen_calls_handler_only_if_verified (H := samplePlatform) _ 0 _ [])).
  - vm_compute. reflexivity.
  - cbn. left.
Defined.

(** X6. A request refused by the signature block is answered from its
    Sign and RequestTime values alone: any other request with the same
    first Sign and RequestTime values gets the same answer, a failure
    envelope, whatever its app id, command and body are. *)
Theorem Listen_refusal_reads_signature_only `{Platform} c now r1 r2 w :
  GetQuery r1 querySign = GetQuery r2 querySign →
  GetQuery r1 querySignRequestTime = GetQuery r2 querySignRequestTime →
  ¬ signatureAccepted c now r1 →
  Listen c now r1 w = Listen c now r2 w ∧
  ∃ message, Listen c now r2 w = acked (AckFailure [message] w).
Proof.
  intros Hs Hrt Hno.
  destruct (Listen_accepts_or_refuses c now r1 w)
    as [[Hacc _]|[_ (message & Hl)]]; [done|].
  assert (Listen c now r1 w = Listen c now r2 w) as Heq.
  { unfold Listen. rewrite <- Hs, <- Hrt.
    destruct (negb (String.eqb (token c) "")) eqn:Ht.
    2: { exfalso. apply Hno. left. apply negb_false_iff in Ht.
         by apply String.eqb_eq. }
    destruct (GetQuery r1 querySign) as [[sign ok]|] eqn:Hs1; [|done].
    cbn. destruct ok; cbn; [|done].
    destruct (GetQuery r1 querySignRequestTime) as [[requestTime ok]|] eqn:Hrt1;
      [|done].
    cbn. destruct ok; cbn; [|done].
    destruct (strconv.ParseInt requestTime) as [requestTimeInt|e] eqn:Hp; [|done].
    destruct (signCheck sign requestTimeInt (token c) now) as [err|] eqn:Hc; [done|].
    exfalso. apply Hno. right. by exists sign, requestTime, requestTimeInt. }
  split; [done|]. exists message. by rewrite <- Heq.
Qed.

Lemma Listen_refusal_reads_signature_only_witness :
  let c := NewCallback (P := samplePlatform) 140000000 ["T"] in
  let r1 :=
    sampleRequest
      [("Sign", "00"); ("RequestTime", "1700000000"); ("SdkAppid", "140000000");
       ("CallbackCommand", "Group.CallbackAfterGroupFull")]
      "{}" in
  let r2 :=
    sampleRequest [("RequestTime", "1700000000"); ("Sign", "00"); ("Sign", "01")] "" in
  Listen c 1700000000 r1 [] = Listen c 1700000000 r2 [] ∧
  ∃ message, Listen c 1700000000 r2 [] = acked (AckFailure [message] []).
Proof.
  cbv zeta.
  apply (Listen_refusal_reads_signature_only (H := samplePlatform)).
  - by vm_compute.
  - by vm_compute.
  - intros [Ht|(sign & requestTime & t & Hs & Hrt & Hp & Hc)].
    + by vm_compute in Ht.
    + vm_compute in Hs. injection Hs as <-.
      vm_compute in Hrt. injection Hrt as <-.
      vm_compute in Hp. injection Hp as <-.
      by vm_compute in Hc.
Defined.

(** ** The shape of the response *)

Lemma Ack_ackWritten `{Platform} resp w :
  Ack resp w = (w ++ ackWritten (json_Marshal resp))%list.
Proof. apply Ack_spec. Qed.

Lemma runAckCalls_ackWritten `{Platform} calls w :
  ∃ bodies,
    length bodies = length calls ∧
    fold_left runAckCall calls w = (w ++ flat_map ackWritten bodies)%list.
Proof.
  revert w. induction calls as [|a calls IH]; intros w.
  - exists []. cbn. by rewrite app_nil_r.
  - cbn [fold_left]. destruct (IH (runAckCall w a)) as (bodies & Hlen & ->).
    assert (∃ body, runAckCall w a = (w ++ ackWritten body)%list) as [body ->].
    { destruct a; cbn [runAckCall];
        rewrite ?AckSuccess_spec, ?AckFailure_spec, Ack_ackWritten; eauto. }
    exists (body :: bodies). split; [cbn; by rewrite Hlen|].
    cbn [flat_map]. by rewrite <- app_assoc.
Qed.

Lemma call_ackWritten `{Platform} fn data w w' :
  call fn data w = Some w' →
  ∃ calls bodies,
    ackCalls fn data = Some calls ∧
    length bodies = length calls ∧
    w' = (w ++ flat_map ackWritten bodies)%list.
Proof.
  unfold call, ackCalls. destruct fn as [|body]; [done|].
  destruct (body data) as [calls|]; [|done]. intros [= <-].
  destruct (runAckCalls_ackWritten calls w) as (bodies & Hlen & Hw).
  by exists calls, bodies.
Qed.

Lemma ackWritten_status `{Platform} bodies statusCode :
  WriteHeader statusCode ∈ flat_map ackWritten bodies → statusCode = 200.
Proof.
  induction bodies as [|b bodies IH]; cbn; intros Hin.
  - by apply elem_of_nil in Hin.
  - apply elem_of_cons in Hin as [[= ->]|Hin]; [done|].
    apply elem_of_cons in Hin as [[=]|Hin]. by apply IH.
Qed.

(** X7. Whatever the request, a call of [Listen] that returns has only
    appended to the response, and what it appended is a sequence of
    acknowledgements, each a [WriteHeader(200)] followed by one [Write]:
    exactly one of them when no handler was called, and one per Ack call
    of the handler otherwise. In particular no status other than 200 was
    written. The calls of [Listen] that do not return are those that pass
    every check and reach a registered handler that is nil or does not
    return for the decoded payload. *)
Theorem Listen_response_shape `{Platform} c now r w :
  (∀ o,
      Listen c now r w = Some o →
      ∃ bodies,
        written o = (w ++ flat_map ackWritten bodies)%list ∧
        match invoked o with
        | [] => length bodies = 1%nat
        | (fn, data) :: _ =>
            ∃ calls, ackCalls fn data = Some calls ∧ length bodies = length calls
        end ∧
        ∀ statusCode,
          WriteHeader statusCode ∈ written o →
          WriteHeader statusCode ∈ w ∨ statusCode = 200) ∧
  (Listen c now r w = None ↔
   ∃ fn data, dispatches c now r fn data ∧ ackCalls fn data = None).
Proof.
  split.
  - intros o Ho.
    assert (∃ bodies,
               written o = (w ++ flat_map ackWritten bodies)%list ∧
               match invoked o with
               | [] => length bodies = 1%nat
               | (fn, data) :: _ =>
                   ∃ calls,
                     ackCalls fn data = Some calls ∧ length bodies = length calls
               end) as (bodies & Hw & Hlen).
    { pose proof (Listen_ends c now r w) as Hends. rewrite Ho in Hends.
      remember (Some o) as result eqn:Hm.
      destruct Hends as [message|event Hev|event fn data Hev].
      - injection Hm as <-. cbn [written invoked].
        eexists [_]. rewrite AckFailure_spec, Ack_spec. split; reflexivity.
      - injection Hm as <-. cbn [written invoked].
        eexists [_]. rewrite AckSuccess_spec, Ack_spec. split; reflexivity.
      - unfold dispatch in Hm.
        destruct (call fn data w) as [w'|] eqn:Hcall; [|done].
        injection Hm as <-. cbn [written invoked].
        destruct (call_ackWritten _ _ _ _ Hcall) as (calls & bodies & Hc & Hlen & ->).
        exists bodies. split; [done|]. by exists calls. }
    exists bodies. split; [done|]. split; [done|].
    intros statusCode. rewrite Hw, elem_of_app. intros [?|Hin]; [by left|].
    right. by apply (ackWritten_status bodies).
  - split.
    + intros Hnone.
      destruct (Listen_dispatches_or_answers c now r w)
        as [(fn & data & Hd)|[_ (resp & Hl)]]; [|by rewrite Hl in Hnone].
      exists fn, data. split; [done|].
      rewrite (dispatches_Listen c now r w fn data Hd) in Hnone.
      unfold dispatch, call in Hnone. unfold ackCalls.
      destruct fn as [|body]; [done|]. by destruct (body data).
    + intros (fn & data & Hd & Hnone).
      rewrite (dispatches_Listen c now r w fn data Hd).
      unfold dispatch, call. unfold ackCalls in Hnone.
      destruct fn as [|body]; [done|]. by rewrite Hnone.
Qed.

Lemma Listen_response_shape_witness :
  let two := [CallAckSuccess 0 []; CallAckFailure ["again"]] in
  let h : EventHandlerFunc := handlerOf two in
  let c := Register EventAfterGroupFull h (NewCallback (P := samplePlatform) 140000000 []) in
  let r :=
    sampleRequest
      [("SdkAppid", "140000000"); ("CallbackCommand", "Group.CallbackAfterGroupFull")]
      "{}" in
  let o := mkOutcome (fold_left runAckCall two [WriteHeader 404]) [(h, Some "{}")] in
  ∃ bodies,
    written o = ([WriteHeader 404] ++ flat_map ackWritten bodies)%list ∧
    (∃ calls, ackCalls h (Some "{}") = Some calls ∧ length bodies = length calls) ∧
    ∀ statusCode,
      WriteHeader statusCode ∈ written o →
      WriteHeader statusCode ∈ [WriteHeader 404] ∨ statusCode = 200.
Proof.
  cbv zeta.
  refine (proj1 (Listen_response_shape (H := samplePlatform)
                   (Register EventAfterGroupFull
                      (handlerOf [CallAckSuccess 0 []; CallAckFailure ["again"]])
                      (NewCallback 140000000 []))
                   0
                   (sampleRequest
                      [("SdkAppid", "140000000");
                       ("CallbackCommand", "Group.CallbackAfterGroupFull")]
                      "{}")
                   [WriteHeader 404]) _ _).
  vm_compute. reflexivity.
Defined.

(** ** How the parameters are compared *)

(** X8. The signature block uses the RequestTime parameter only through
    the number it parses to: two requests that agree on everything else
    and whose RequestTime texts parse to the same number (a leading plus
    sign, leading zeros) have the same outcome. *)
Theorem Listen_requestTime_by_value `{Platform} c now r1 r2 w requestTime1 requestTime2 :
  GetQuery r1 querySign = GetQuery r2 querySign →
  GetQuery r1 querySignRequestTime = Some (requestTime1, true) →
  GetQuery r2 querySignRequestTime = Some (requestTime2, true) →
  strconv.ParseInt requestTime1 = strconv.ParseInt requestTime2 →
  GetQuery r1 queryAppId = GetQuery r2 queryAppId →
  GetQuery r1 queryCommand = GetQuery r2 queryCommand →
  ReadAll r1 = ReadAll r2 →
  Listen c now r1 w = Listen c now r2 w.
Proof.
  intros Hs Hrt1 Hrt2 Hp Ha Hc Hb. unfold Listen.
  rewrite <- Hs, Hrt1, Hrt2. cbn [mbind option_bind].
  rewrite <- Hp. by rewrite (listenVerified_ext c r1 r2 w Ha Hc Hb).
Qed.

Lemma Listen_requestTime_by_value_witness :
  let c := NewCallback (P := samplePlatform) 140000000 ["T"] in
  let request requestTime :=
    sampleRequest
      [("Sign", expectedSign "T" 1700000030); ("RequestTime", requestTime);
       ("SdkAppid", "140000000"); ("CallbackCommand", "Group.CallbackAfterGroupFull")]
      "{}" in
  Listen c 1700000000 (request "+1700000030") []
  = Listen c 1700000000 (request "0001700000030") [].
Proof.
  cbv zeta.
  apply (Listen_requestTime_by_value (H := samplePlatform) _ _ _ _ _
           "+1700000030" "0001700000030"); by vm_compute.
Defined.

(** X9. The SdkAppid parameter is compared as text with the decimal form
    of the configured app id. A request that passed the signature block
    and whose SdkAppid is missing, or is any other text (also another
    spelling of the same number), is answered "invalid sdk appId", and no
    handler is called. *)
Theorem Listen_appId_compared_as_text `{Platform} c now r w :
  signatureAccepted c now r →
  GetQuery r queryAppId ≠ Some (strconv.Itoa (appId c), true) →
  Listen c now r w = acked (AckFailure ["invalid sdk appId"] w).
Proof.
  intros Hacc Hne. rewrite (Listen_signatureAccepted _ _ _ _ Hacc).
  unfold listenVerified.
  destruct (GetQuery r queryAppId) as [[appId' ok]|] eqn:Ha;
    [|by apply GetQuery_not_None in Ha].
  cbn. destruct ok; cbn; [|done].
  destruct (String.eqb_spec appId' (strconv.Itoa (appId c))) as [->|_]; done.
Qed.

Lemma Listen_appId_compared_as_text_witness :
  let h : EventHandlerFunc := handlerOf [CallAckSuccess 0 []] in
  let c := Register EventAfterGroupFull h (NewCallback 140000000 []) in
  Listen c 0
    (sampleRequest
       [("SdkAppid", "0140000000"); ("CallbackCommand", "Group.CallbackAfterGroupFull")]
       "{}")
    []
  = acked (AckFailure ["invalid sdk appId"] []).
Proof.
  cbv zeta.
  apply (Listen_appId_compared_as_text (H := samplePlatform)).
  - by left.
  - by vm_compute.
Defined.

(** ** Failures after the app-id check *)

(** X10. For a request that passed the signature block and the app-id
    check and names a command: if reading the body fails, the answer
    carries the text of the read error, whether or not the command is
    known; if the body is read but does not decode into the shape of a
    known command, the answer carries the text of the decoder's error. In
    both cases no handler is called, registered or not. *)
Theorem Listen_body_errors `{Platform} c now r w command body :
  signatureAccepted c now r →
  GetQuery r queryAppId = Some (strconv.Itoa (appId c), true) →
  GetQuery r queryCommand = Some (command, true) →
  (∀ err,
      ReadAll r = (body, Some err) →
      Listen c now r w = acked (AckFailure [Error err] w)) ∧
  (∀ event shape e,
      ReadAll r = (body, None) →
      (command, (event, shape)) ∈ commandTable →
      json_Unmarshal body shape = inr e →
      Listen c now r w = acked (AckFailure [LibError_text e] w)).
Proof.
  intros Hacc Ha Hc. rewrite (Listen_signatureAccepted _ _ _ _ Hacc).
  unfold listenVerified. rewrite Ha. cbn. rewrite String.eqb_refl. cbn.
  rewrite Hc. cbn. split.
  - intros err Hb. by rewrite Hb.
  - intros event shape e Hb Hin Hdec. rewrite Hb.
    by rewrite (proj2 (proj1 (proj2 (proj2 parseCommand_registry)) _ _ _ body Hin)), Hdec.
Qed.

Lemma Listen_body_errors_witness :
  let h : EventHandlerFunc := handlerOf [CallAckSuccess 0 []] in
  let c := Register EventAfterGroupFull h (NewCallback 140000000 []) in
  let query :=
    [("SdkAppid", "140000000"); ("CallbackCommand", "Group.CallbackAfterGroupFull")] in
  Listen c 0 (mkRequest query ([], Some (lib_error "unexpected EOF"))) []
  = acked (AckFailure ["unexpected EOF"] [])
  ∧ Listen c 0 (sampleRequest query "") []
    = acked (AckFailure ["unexpected end of JSON input"] []).
Proof.
  cbv zeta. split.
  - refine (proj1 (Listen_body_errors (H := samplePlatform) _ 0 _ []
                     "Group.CallbackAfterGroupFull" [] _ _ _)
              (lib_error "unexpected EOF") _);
      [by left | by vm_compute | by vm_compute | done].
  - refine (proj2 (Listen_body_errors (H := samplePlatform) _ 0 _ []
                     "Group.CallbackAfterGroupFull" [] _ _ _)
              EventAfterGroupFull AfterGroupFull "unexpected end of JSON input" _ _ _);
      [by left | by vm_compute | by vm_compute | done | | done].
    apply (bool_decide_unpack _). vm_compute. exact I.
Defined.

(** X11. A request that passed the signature block and the app-id check
    gets the same answer, "invalid callback command", when it has no
    CallbackCommand parameter and when it has one that is not in the
    registry and a readable body: the answer does not tell the two apart. *)
Theorem Listen_missing_or_unknown_command `{Platform} c now r w :
  signatureAccepted c now r →
  GetQuery r queryAppId = Some (strconv.Itoa (appId c), true) →
  (GetQuery r queryCommand = Some ("", false) ∨
   ∃ command body,
     GetQuery r queryCommand = Some (command, true) ∧
     (command ∉ commandTable.*1) ∧ ReadAll r = (body, None)) →
  Listen c now r w = acked (AckFailure ["invalid callback command"] w).
Proof.
  intros Hacc Ha Hc. rewrite (Listen_signatureAccepted _ _ _ _ Hacc).
  unfold listenVerified. rewrite Ha. cbn. rewrite String.eqb_refl. cbn.
  destruct Hc as [Hc|(command & body & Hc & Hout & Hb)]; rewrite Hc; cbn; [done|].
  by rewrite Hb, parseCommand_unknown.
Qed.

Lemma Listen_missing_or_unknown_command_witness :
  let c := NewCallback (P := samplePlatform) 140000000 [] in
  Listen c 0 (sampleRequest [("SdkAppid", "140000000")] "{}") []
  = acked (AckFailure ["invalid callback command"] [])
  ∧ Listen c 0
      (sampleRequest
         [("SdkAppid", "140000000"); ("CallbackCommand", "group.callbackaftergroupfull")]
         "{}")
      []
    = acked (AckFailure ["invalid callback command"] []).
Proof.
  cbv zeta. split.
  - apply (Listen_missing_or_unknown_command (H := samplePlatform));
      [by left | by vm_compute | left; by vm_compute].
  - apply (Listen_missing_or_unknown_command (H := samplePlatform));
      [by left | by vm_compute |].
    right. exists "group.callbackaftergroupfull", (bytes_of_string "{}").
    split; [by vm_compute|]. split; [|done].
    apply (bool_decide_unpack _). vm_compute. exact I.
Defined.

(** ** Registration for different events *)

Lemma listenVerified_Register_other `{Platform} c event h r w :
  ¬ resolves r event →
  listenVerified (Register event h c) r w = listenVerified c r w.
Proof.
  intros Hno. unfold listenVerified. cbn [appId Register].
  destruct (GetQuery r queryAppId) as [[appId' ok]|]; [|done].
  cbn. destruct (negb ok || negb (String.eqb appId' (strconv.Itoa (appId c)))); [done|].
  destruct (GetQuery r queryCommand) as [[command ok']|] eqn:Hc; [|done].
  cbn. destruct ok'; cbn; [|done].
  destruct (ReadAll r) as [body [err|]] eqn:Hb; [done|].
  destruct (parseCommand command body) as [[event' data] [err|]] eqn:Hp; [done|].
  rewrite lookup_insert_ne; [done|].
  intros <-. apply Hno. by exists command, body, data.
Qed.

(** X12. Registrations for different events do not interfere: their order
    does not matter, each keeps its handler, and registering a handler for
    one event leaves the outcome of every request that does not resolve to
    that event as it was. *)
Theorem Register_other_event `{Platform} c e1 e2 h1 h2 :
  e1 ≠ e2 →
  Register e1 h1 (Register e2 h2 c) = Register e2 h2 (Register e1 h1 c) ∧
  handlers (Register e1 h1 (Register e2 h2 c)) !! e1 = Some h1 ∧
  handlers (Register e1 h1 (Register e2 h2 c)) !! e2 = Some h2 ∧
  ∀ now r w,
    ¬ resolves r e2 →
    Listen (Register e2 h2 c) now r w = Listen c now r w.
Proof.
  intros Hne. split; [|split; [|split]].
  - unfold Register. cbn. f_equal. by apply insert_insert_ne.
  - cbn. apply lookup_insert_eq.
  - cbn. rewrite lookup_insert_ne by done. apply lookup_insert_eq.
  - intros now r w Hno. unfold Listen. cbn [token Register].
    by rewrite (listenVerified_Register_other c e2 h2 r w Hno).
Qed.

Lemma Register_other_event_witness :
  let h1 : EventHandlerFunc := handlerOf [CallAckSuccess 0 []] in
  let h2 : EventHandlerFunc := handlerOf [CallAckFailure ["full"]] in
  let c := Register EventAfterGroupCreate h1 (NewCallback 140000000 []) in
  let r :=
    sampleRequest
      [("SdkAppid", "140000000"); ("CallbackCommand", "Group.CallbackAfterCreateGroup")]
      "{}" in
  Listen (Register EventAfterGroupFull h2 c) 0 r [] = Listen c 0 r [].
Proof.
  cbv zeta.
  refine (proj2 (proj2 (proj2
            (Register_other_event (H := samplePlatform)
               (Register EventAfterGroupCreate (handlerOf [CallAckSuccess 0 []])
                  (NewCallback 140000000 []))
               EventStateChange EventAfterGroupFull (handlerOf [])
               (handlerOf [CallAckFailure ["full"]]) _)))
            0 _ [] _).
  - done.
  - intros (command & body & data & Hc & Hb & Hp).
    vm_compute in Hc. injection Hc as <-.
    vm_compute in Hb. injection Hb as <-.
    by vm_compute in Hp.
Defined.

(** * Package group *)

(** ** Optional arguments of DeleteMembers *)

Ltac member_true_or_false :=
  match goal with
  | |- context [bool_decide (?x ∈ ?l)] =>
      first
        [ rewrite (bool_decide_eq_true_2 (x ∈ l))
            by (repeat first [apply list_elem_of_here | apply list_elem_of_further])
        | rewrite (bool_decide_eq_false_2 (x ∈ l))
            by (let Hm := fresh in
                intros Hm;
                repeat (apply elem_of_cons in Hm as [Hm|Hm]; [discriminate Hm|]);
                by apply elem_of_nil in Hm) ]
  end.

(** X13. [DeleteMembers] posts one "delete_group_member" request to the
    group service, carrying the group id and the user ids as given. Of its
    optional arguments only the first two are looked at: the reason sent is
    the last string among them (empty when there is none), and the silence
    flag is 1 exactly when one of them is the boolean [true]; a [false]
    does not undo an earlier [true], and values of other types and later
    arguments are ignored. An error of the client is returned as it is. *)
Theorem DeleteMembers_options `{group.Client} groupId userIds vals :
  group.DeleteMembers groupId userIds vals
  = group.client_error <$>
      group.Post_action "group_open_http_svc" "delete_group_member"
        (group.ReqDeleteMembers
           (deleteMembersReq.mk groupId userIds
              (default "" (last (omap asString (take 2 vals))))
              (if bool_decide (group.AnyBool true ∈ take 2 vals) then 1 else 0)))
  ∧ group.DeleteMembers groupId userIds vals
    = group.DeleteMembers groupId userIds (take 2 vals).
Proof.
  assert (∀ vals',
             group.DeleteMembers groupId userIds vals'
             = group.client_error <$>
                 group.Post_action "group_open_http_svc" "delete_group_member"
                   (group.ReqDeleteMembers
                      (deleteMembersReq.mk groupId userIds
                         (default "" (last (omap asString (take 2 vals'))))
                         (if bool_decide (group.AnyBool true ∈ take 2 vals')
                          then 1 else 0)))) as Hspec.
  { intros vals'. unfold group.DeleteMembers.
    destruct vals' as [|a [|b rest]]; [done| |].
    - destruct a as [s|[]|]; cbn; member_true_or_false; done.
    - destruct a as [s|[]|], b as [s'|[]|], rest; cbn; member_true_or_false; done. }
  split; [apply Hspec|].
  rewrite (Hspec vals), (Hspec (take 2 vals)). by rewrite take_take.
Qed.

Lemma DeleteMembers_options_witness :
  group.DeleteMembers (client := sampleClient) "@TGS#1" ["alice"]
    [group.AnyBool true; group.AnyBool false; group.AnyString "late"]
  = group.DeleteMembers (client := sampleClient) "@TGS#1" ["alice"]
      [group.AnyBool true; group.AnyBool false].
Proof.
  rewrite (proj2 (DeleteMembers_options (H := sampleClient) "@TGS#1" ["alice"]
                    [group.AnyBool true; group.AnyBool false; group.AnyString "late"])).
  reflexivity.
Defined.

(** ** Results collected into maps *)

(** A map filled from a list, entry by entry, holds for each key the value
    of the last entry with that key. *)
Lemma fold_left_insert_lookup {A K V} `{Countable K}
    (key : A → K) (val : A → V) (l : list A) (m : gmap K V) (k : K) :
  fold_left (λ m item, <[key item := val item]> m) l m !! k
  = match last (filter (λ item, key item = k) l) with
    | Some item => Some (val item)
    | None => m !! k
    end.
Proof.
  revert m. induction l as [|a l IH]; intros m; [done|].
  cbn [fold_left]. rewrite IH, filter_cons.
  destruct (decide (key a = k)) as [<-|Hne].
  - destruct (filter (λ item, key item = key a) l) as [|b l'] eqn:Hf.
    + cbn. apply lookup_insert_eq.
    + rewrite last_cons_cons. destruct (last (b :: l')) eqn:Hl; [done|].
      by apply last_None in Hl.
  - destruct (last (filter (λ item, key item = k) l)); [done|].
    by apply lookup_insert_ne.
Qed.

(** X14. [GetRolesInGroup] and [GetShuttedUpMembers] post one request to
    the group service and return the client's error with a nil map if it
    fails. Otherwise they return a map that holds, for each user id in the
    answer, the role (the shut-up deadline) of the last entry for that user,
    and nothing for any other user. *)
Theorem group_maps_keep_last_entry `{group.Client} groupId userIds :
  match group.Post_roles "group_open_http_svc" "get_role_in_group"
          (group.ReqGetRolesInGroup (getRolesInGroupReq.mk groupId userIds)) with
  | inr err =>
      group.GetRolesInGroup groupId userIds = (None, Some (group.client_error err))
  | inl MemberRoleList =>
      ∃ memberRoles,
        group.GetRolesInGroup groupId userIds = (Some memberRoles, None) ∧
        ∀ userId,
          memberRoles !! userId
          = memberRole.Role <$>
              last (filter (λ item, memberRole.UserId item = userId) MemberRoleList)
  end
  ∧
  match group.Post_shuttedUps "group_open_http_svc" "get_group_shutted_uin"
          (group.ReqGetShuttedUpMembers (getShuttedUpMembersReq.mk groupId)) with
  | inr err =>
      group.GetShuttedUpMembers groupId = (None, Some (group.client_error err))
  | inl ShuttedUpList =>
      ∃ shuttedUps,
        group.GetShuttedUpMembers groupId = (Some shuttedUps, None) ∧
        ∀ userId,
          shuttedUps !! userId
          = shuttedUp.ShuttedUntil <$>
              last (filter (λ item, shuttedUp.UserId item = userId) ShuttedUpList)
  end.
Proof.
  split.
  - unfold group.GetRolesInGroup, group.serviceGroup, group.commandGetRoleInGroup.
    destruct (group.Post_roles _ _ _) as [l|err]; [|done].
    eexists. split; [done|]. intros userId.
    rewrite fold_left_insert_lookup, lookup_empty.
    by destruct (last _).
  - unfold group.GetShuttedUpMembers, group.serviceGroup,
      group.commandGetGroupShuttedUin.
    destruct (group.Post_shuttedUps _ _ _) as [l|err]; [|done].
    eexists. split; [done|]. intros userId.
    rewrite fold_left_insert_lookup, lookup_empty.
    by destruct (last _).
Qed.

Lemma group_maps_keep_last_entry_witness :
  ∃ memberRoles,
    group.GetRolesInGroup (client := sampleClient) "@TGS#1" ["alice"; "bob"; "carol"]
    = (Some memberRoles, None) ∧
    memberRoles !! "alice" = Some "Owner" ∧
    memberRoles !! "carol" = None.
Proof.
  destruct (group_maps_keep_last_entry (H := sampleClient) "@TGS#1"
              ["alice"; "bob"; "carol"]) as [(memberRoles & Hr & Hm) _].
  exists memberRoles. split; [exact Hr|]. by rewrite !Hm.
Defined.

(** ** Recalling messages *)

Lemma fold_left_snoc {A} (l acc : list A) :
  fold_left (λ l x, (l ++ [x])%list) l acc = (acc ++ l)%list.
Proof.
  revert acc. induction l as [|a l IH]; intros acc; cbn.
  - by rewrite app_nil_r.
  - by rewrite IH, <- app_assoc.
Qed.

(** X15. [RevokeMessages] posts one "group_msg_recall" request that lists
    the given sequence numbers in the order given, repeated ones included,
    and returns the client's error with a nil map if it fails. Otherwise it
    returns a map that holds, for each sequence number in the answer, the
    return code of the last entry for that number; a number the answer
    leaves out is not in the map. *)
Theorem RevokeMessages_results `{group.Client} groupId msgSeq :
  match group.Post_recall "group_open_http_svc" "group_msg_recall"
          (group.ReqRevokeMessages (revokeMessagesReq.mk groupId msgSeq)) with
  | inr err =>
      group.RevokeMessages groupId msgSeq = (None, Some (group.client_error err))
  | inl RecallRetList =>
      ∃ results,
        group.RevokeMessages groupId msgSeq = (Some results, None) ∧
        ∀ seq,
          results !! seq
          = recallRet.RetCode <$>
              last (filter (λ item, recallRet.MsgSeq item = seq) RecallRetList)
  end.
Proof.
  unfold group.RevokeMessages, group.serviceGroup, group.commandRecallGroupMsg.
  rewrite fold_left_snoc, app_nil_l.
  destruct (group.Post_recall _ _ _) as [l|err]; [|done].
  eexists. split; [done|]. intros seq.
  rewrite fold_left_insert_lookup, lookup_empty.
  by destruct (last _).
Qed.

(** X16. [RevokeMessage] asks for the recall of the one given sequence
    number and passes on the client's error if there is one. Otherwise it
    takes the return code of the last entry for that number in the answer,
    and 0 if the answer has no entry for it; it returns no error when this
    code is [enum.SuccessCode], and the error made of the code and "message
    revoke failed" when it is not. So when the answer leaves the number
    out, the call reports success exactly if [enum.SuccessCode] is 0. *)
Theorem RevokeMessage_outcome `{group.Client} groupId msgSeq :
  match group.Post_recall "group_open_http_svc" "group_msg_recall"
          (group.ReqRevokeMessages (revokeMessagesReq.mk groupId [msgSeq])) with
  | inr err => group.RevokeMessage groupId msgSeq = Some (group.client_error err)
  | inl RecallRetList =>
      let code :=
        default 0
          (recallRet.RetCode <$>
             last (filter (λ item, recallRet.MsgSeq item = msgSeq) RecallRetList)) in
      group.RevokeMessage groupId msgSeq
      = (if decide (code = group.SuccessCode) then None
         else Some (group.core_NewError code "message revoke failed"))
      ∧ (msgSeq ∉ recallRet.MsgSeq <$> RecallRetList →
         group.RevokeMessage groupId msgSeq = None ↔ group.SuccessCode = 0)
  end.
Proof.
  pose proof (RevokeMessages_results groupId [msgSeq]) as Hr.
  unfold group.RevokeMessage.
  destruct (group.Post_recall _ _ _) as [l|err]; [|by rewrite Hr].
  destruct Hr as (results & -> & Hm). cbv zeta.
  unfold group.index. cbn [mbind option_bind]. rewrite Hm.
  set (code := default 0 (recallRet.RetCode <$> last (filter _ l))).
  assert (
    (if negb (code =? group.SuccessCode)
     then Some (group.core_NewError code "message revoke failed") else None)
    = (if decide (code = group.SuccessCode) then None
       else Some (group.core_NewError code "message revoke failed"))) as Hbody.
  { destruct (Z.eqb_spec code group.SuccessCode); by case_decide. }
  split; [done|]. intros Hout. rewrite Hbody.
  assert (code = 0) as ->.
  { unfold code. replace (filter _ l) with (@nil recallRet.t); [done|].
    symmetry. clear -Hout. induction l as [|item l IH]; [done|].
    rewrite fmap_cons, not_elem_of_cons in Hout. destruct Hout as [Hne Hout].
    rewrite filter_cons, decide_False by done. by apply IH. }
  by case_decide.
Qed.

Lemma RevokeMessage_outcome_witness :
  group.RevokeMessage (client := sampleClient) "@TGS#1" 7
  = Some (group.core_NewError 10030 "message revoke failed")
  ∧ group.RevokeMessage (client := sampleClient) "@TGS#1" 9 = None.
Proof.
  split.
  - exact (proj1 (RevokeMessage_outcome (H := sampleClient) "@TGS#1" 7)).
  - apply (proj2 (RevokeMessage_outcome (H := sampleClient) "@TGS#1" 9)).
    + cbn. apply not_elem_of_nil.
    + reflexivity.
Defined.

(** * More on the callback package *)

(** X17. [parseCommand] returns a zero event and a nil payload whenever
    it returns an error, and whenever it does not, an event between 1 and
    22 that the registry gives for the command, with the payload the body
    decoded to in the shape of that command (nil when the decoder leaves
    nil, as for the body null). So the event is zero exactly when there is
    an error. *)
Theorem parseCommand_error_iff_no_event `{Platform} command body :
  match parseCommand command body with
  | (event, data, None) =>
      1 ≤ event ≤ 22 ∧
      ∃ shape,
        (command, (event, shape)) ∈ commandTable ∧
        json_Unmarshal body shape = inl data
  | (event, data, Some err) => event = 0 ∧ data = None
  end.
Proof.
  destruct (parseCommand command body) as [[event data] [err|]] eqn:Hp.
  - revert Hp. unfold parseCommand.
    destruct (switch commandTable command) as [[event' shape]|];
      [|by intros [= <- <-]].
    destruct (json_Unmarshal body shape) as [data'|e]; [done|].
    by intros [= <- <-].
  - destruct (parseCommand_no_error _ _ _ _ Hp) as (shape & Hin & Hdec).
    split; [|by exists shape].
    pose proof commandTable_events_range as Hr.
    rewrite Forall_forall in Hr. apply (Hr _ Hin).
Qed.

(** X18. [Listen] reads of a request the first values of the parameters
    Sign, RequestTime, SdkAppid and CallbackCommand and the body, and
    nothing else: two requests that agree on these have the same outcome,
    whatever other parameters, further values of these four, or order of
    parameters they have. *)
Theorem Listen_reads_four_parameters `{Platform} c now r1 r2 w :
  GetQuery r1 querySign = GetQuery r2 querySign →
  GetQuery r1 querySignRequestTime = GetQuery r2 querySignRequestTime →
  GetQuery r1 queryAppId = GetQuery r2 queryAppId →
  GetQuery r1 queryCommand = GetQuery r2 queryCommand →
  ReadAll r1 = ReadAll r2 →
  Listen c now r1 w = Listen c now r2 w.
Proof.
  intros Hs Hrt Ha Hc Hb. unfold Listen.
  by rewrite Hs, Hrt, (listenVerified_ext c r1 r2 w Ha Hc Hb).
Qed.

Lemma Listen_reads_four_parameters_witness :
  let c := NewCallback (P := samplePlatform) 140000000 ["T"] in
  Listen c 1700000000
    (sampleRequest
       [("Sign", expectedSign "T" 1700000030); ("RequestTime", "1700000030");
        ("SdkAppid", "140000000"); ("CallbackCommand", "Group.CallbackAfterGroupFull")]
       "{}")
    []
  = Listen c 1700000000
      (sampleRequest
         [("ClientIP", "10.0.0.1"); ("CallbackCommand", "Group.CallbackAfterGroupFull");
          ("SdkAppid", "140000000"); ("SdkAppid", "999"); ("OptPlatform", "iOS");
          ("RequestTime", "1700000030"); ("Sign", expectedSign "T" 1700000030);
          ("Sign", "")]
         "{}")
      [].
Proof.
  cbv zeta.
  apply (Listen_reads_four_parameters (H := samplePlatform)); by vm_compute.
Defined.

Lemma hex_digits_of_byte (b : byte) :
  hex.digit (Z.shiftr (byte_val b) 4) ∈ list_ascii_of_string hex.hextable ∧
  hex.digit (Z.land (byte_val b) 15) ∈ list_ascii_of_string hex.hextable.
Proof.
  destruct b; split; apply (bool_decide_unpack _); vm_compute; exact I.
Qed.

Lemma EncodeToString_alphabet src ch :
  ch ∈ list_ascii_of_string (hex.EncodeToString src) →
  ch ∈ list_ascii_of_string hex.hextable.
Proof.
  induction src as [|b src IH]; cbn [hex.EncodeToString list_ascii_of_string].
  - intros Hin. by apply elem_of_nil in Hin.
  - destruct (hex_digits_of_byte b) as [Hhi Hlo].
    rewrite !elem_of_cons. intros [->|[->|Hin]]; [done..|]. by apply IH.
Qed.

(** X19. [signCheck] accepts only a signature of exactly 64 characters,
    all of them among 0-9 and a-f: a digest written in upper case, cut
    short or padded is refused. *)
Theorem signCheck_accepts_lowercase_hex_only `{Platform} sign requestTime token now :
  signCheck sign requestTime token now = None →
  String.length sign = 64%nat ∧
  ∀ ch, ch ∈ list_ascii_of_string sign →
        ch ∈ list_ascii_of_string "0123456789abcdef".
Proof.
  rewrite signCheck_None_iff. intros [-> _]. split.
  - apply expectedSign_length.
  - intros ch. apply EncodeToString_alphabet.
Qed.

Lemma signCheck_accepts_lowercase_hex_only_witness :
  String.length (expectedSign "T" 1700000030) = 64%nat ∧
  ∀ ch, ch ∈ list_ascii_of_string (expectedSign "T" 1700000030) →
        ch ∈ list_ascii_of_string "0123456789abcdef".
Proof.
  apply (signCheck_accepts_lowercase_hex_only (H := samplePlatform)
           _ 1700000030 "T" 1700000000).
  by vm_compute.
Defined.
